(** * bower-json: the manifest reader, validator, normaliser and locator

    A shallow embedding of [lib/json.js] (module [Json]) and of the earlier
    revision of the same file kept next to it (module [Part000]), followed by
    the properties of the specification that were checked against them. *)

From Stdlib Require Import String Ascii List ZArith Bool Lia DecimalString.
From stdpp Require Import base option list gmap strings.
Import ListNotations.

Set Warnings "-register-all".

Local Open Scope string_scope.
Local Open Scope Z_scope.
Local Open Scope list_scope.

(** ** JavaScript values

    A manifest is what [JSON.parse] produces: [value] has one constructor per
    JSON kind, and [VUndefined] for what reading an absent property gives.
    An object keeps its own properties in the order [Object.keys] lists them.
    Numbers are kept as integers; the code only looks at their truthiness.
    A string is a sequence of character codes below 256, and its [length] is
    their number. *)

Inductive value : Type :=
| VUndefined
| VNull
| VBool (b : bool)
| VNum (n : Z)
| VStr (s : string)
| VArr (items : list value)
| VObj (props : list (string * value)).

(** ** Errors

    [message], [code] and [file] are the three attributes the code reads or
    writes on an error object. *)

Record error : Type := Error {
  message : string;
  code : option string;
  file : option string
}.

(** Modelled from the spec: the module [./util/createError] that
    [lib/json.js] requires.  A ValidationError is "a tagged failure carrying
    a human-readable message, a machine-readable kind, and optionally the
    originating file path"; a freshly created one has no path yet. *)
Definition createError (msg code : string) : error :=
  {| message := msg; code := Some code; file := None |}.

(** The error the engine raises when a property of [null] or [undefined] is
    read, when a non-function is called, or when an object cannot be turned
    into a primitive.  The engine's wording of its message is not modelled. *)
Definition TypeError : error :=
  {| message := "TypeError"; code := None; file := None |}.

(** [err.file = f] and [err.code = c] *)
Definition set_file (f : string) (e : error) : error :=
  {| message := message e; code := code e; file := Some f |}.

Definition set_code (c : string) (e : error) : error :=
  {| message := message e; code := Some c; file := file e |}.

(** ** Results: a function either returns or throws *)

Inductive result (A : Type) : Type :=
| Return (a : A)
| Throw (e : error).
Arguments Return {A} a.
Arguments Throw {A} e.

#[global] Instance result_ret : MRet result := @Return.
#[global] Instance result_bind : MBind result := λ A B f m,
  match m with
  | Return a => f a
  | Throw e => Throw e
  end.

(** [if (cond) { throw createError(msg, 'EINVALID'); }] *)
Definition throw_if (cond : bool) (msg : string) : result unit :=
  if cond then Throw (createError msg "EINVALID") else Return tt.

(** ** The parts of the language the validators rely on *)

(** What the engine does when a number is printed and when a string is read
    as a number ([None] is NaN). *)
Class Engine : Type := {
  NumberToString : Z → string;
  StringToNumber : string → option Z
}.

Definition truthy (v : value) : bool :=
  match v with
  | VUndefined | VNull => false
  | VBool b => b
  | VNum n => negb (n =? 0)
  | VStr s => negb (String.eqb s EmptyString)
  | VArr _ | VObj _ => true
  end.

(** [typeof v === 'string'] *)
Definition is_string (v : value) : bool :=
  match v with VStr _ => true | _ => false end.

(** [v instanceof Array] *)
Definition is_array (v : value) : bool :=
  match v with VArr _ => true | _ => false end.

(** [v instanceof Object] *)
Definition is_object (v : value) : bool :=
  match v with VArr _ | VObj _ => true | _ => false end.

(** [v !== undefined] *)
Definition is_defined (v : value) : bool :=
  match v with VUndefined => false | _ => true end.

Fixpoint lookup_prop (k : string) (props : list (string * value)) : option value :=
  match props with
  | [] => None
  | (k', v) :: rest => if String.eqb k k' then Some v else lookup_prop k rest
  end.

(** [obj[k] = v]: an existing property keeps its place, a new one goes last. *)
Fixpoint assign_prop (k : string) (v : value) (props : list (string * value))
  : list (string * value) :=
  match props with
  | [] => [(k, v)]
  | (k', v') :: rest =>
      if String.eqb k k' then (k', v) :: rest else (k', v') :: assign_prop k v rest
  end.

Definition string_of_nat (n : nat) : string :=
  NilEmpty.string_of_uint (Nat.to_uint n).

(** The indexed properties of an array, ["0"], ["1"], ... *)
Fixpoint index_from (i : nat) (items : list value) : list (string * value) :=
  match items with
  | [] => []
  | x :: rest => (string_of_nat i, x) :: index_from (S i) rest
  end.

(** The own enumerable properties of a value, in [Object.keys] order. *)
Definition own_props (v : value) : list (string * value) :=
  match v with
  | VObj props => props
  | VArr items => index_from 0 items
  | _ => []
  end.

(** [v[k]] and [v.k].  Reading from [null] or [undefined] throws; a string
    and an array have a [length]; everything else is an own property or
    [undefined]. *)
Definition get_prop (v : value) (k : string) : result value :=
  match v with
  | VUndefined | VNull => Throw TypeError
  | VStr s =>
      Return (if String.eqb k "length" then VNum (Z.of_nat (String.length s))
              else VUndefined)
  | VArr items =>
      Return (if String.eqb k "length" then VNum (Z.of_nat (length items))
              else default VUndefined (lookup_prop k (index_from 0 items)))
  | VObj props => Return (default VUndefined (lookup_prop k props))
  | VBool _ | VNum _ => Return VUndefined
  end.

Section Coercions.
Context `{Engine}.

(** [String(v)], as a regular expression's [test] and string concatenation
    apply it.  A parsed object has no callable [toString] of its own: it
    inherits the default one unless an own property shadows it, and then
    the conversion throws. *)
Fixpoint ToString (v : value) : result string :=
  match v with
  | VUndefined => Return "undefined"
  | VNull => Return "null"
  | VBool b => Return (if b then "true" else "false")
  | VNum n => Return (NumberToString n)
  | VStr s => Return s
  | VArr items =>
      (fix join (l : list value) : result string :=
         match l with
         | [] => Return EmptyString
         | x :: rest =>
             s ← match x with
                 | VUndefined | VNull => Return EmptyString
                 | _ => ToString x
                 end;
             match rest with
             | [] => Return s
             | _ => r ← join rest; Return (s +:+ "," +:+ r)
             end
         end) items
  | VObj props =>
      match lookup_prop "toString" props with
      | Some _ => Throw TypeError
      | None => Return "[object Object]"
      end
  end.

(** [Number(v)]; [None] is NaN. *)
Definition ToNumber (v : value) : result (option Z) :=
  match v with
  | VUndefined => Return None
  | VNull => Return (Some 0)
  | VBool b => Return (Some (if b then 1 else 0))
  | VNum n => Return (Some n)
  | VStr s => Return (StringToNumber s)
  | VArr _ | VObj _ => s ← ToString v; Return (StringToNumber s)
  end.

(** [v > n] and [v >= n] against a number literal. *)
Definition js_gt (v : value) (n : Z) : result bool :=
  x ← ToNumber v;
  Return (match x with Some k => n <? k | None => false end).

Definition js_ge (v : value) (n : Z) : result bool :=
  x ← ToNumber v;
  Return (match x with Some k => n <=? k | None => false end).
End Coercions.

(** ** Regular expressions

    The literals of the source use character classes, concatenation,
    [?], [*], [+], groups and the two anchors.  [test] asks whether some
    substring matches, so a pattern is kept as its body together with the
    anchors it starts and ends with. *)

Module RegExp.

Inductive regex : Type :=
| Fail
| Eps
| Chars (negated : bool) (ranges : list (ascii * ascii))
| Cat (r1 r2 : regex)
| Alt (r1 r2 : regex)
| Star (r : regex).

(** [r?] and [r+] *)
Definition Opt (r : regex) : regex := Alt r Eps.
Definition Plus (r : regex) : regex := Cat r (Star r).

Definition in_range (c : ascii) (range : ascii * ascii) : bool :=
  (nat_of_ascii (fst range) <=? nat_of_ascii c)%nat
  && (nat_of_ascii c <=? nat_of_ascii (snd range))%nat.

Definition in_class (negated : bool) (ranges : list (ascii * ascii)) (c : ascii)
  : bool :=
  xorb negated (existsb (in_range c) ranges).

Fixpoint nullable (r : regex) : bool :=
  match r with
  | Fail => false
  | Eps => true
  | Chars _ _ => false
  | Cat r1 r2 => nullable r1 && nullable r2
  | Alt r1 r2 => nullable r1 || nullable r2
  | Star _ => true
  end.

Fixpoint deriv (c : ascii) (r : regex) : regex :=
  match r with
  | Fail => Fail
  | Eps => Fail
  | Chars negated ranges => if in_class negated ranges c then Eps else Fail
  | Cat r1 r2 =>
      if nullable r1 then Alt (Cat (deriv c r1) r2) (deriv c r2)
      else Cat (deriv c r1) r2
  | Alt r1 r2 => Alt (deriv c r1) (deriv c r2)
  | Star r1 => Cat (deriv c r1) (Star r1)
  end.

Fixpoint accepts (r : regex) (s : list ascii) : bool :=
  match s with
  | [] => nullable r
  | c :: s' => accepts (deriv c r) s'
  end.

(** A class that every character belongs to. *)
Definition any : regex := Chars true [].

Record pattern : Type := Pattern {
  anchored_start : bool;
  body : regex;
  anchored_end : bool
}.

Definition whole (p : pattern) : regex :=
  Cat (if anchored_start p then Eps else Star any)
      (Cat (body p) (if anchored_end p then Eps else Star any)).

(** [p.test(s)] *)
Definition test (p : pattern) (s : string) : bool :=
  accepts (whole p) (list_ascii_of_string s).

(** The words of a regular expression, as a relation. *)
Inductive Matches : regex → list ascii → Prop :=
| MEps : Matches Eps []
| MChars negated ranges c :
    in_class negated ranges c = true → Matches (Chars negated ranges) [c]
| MCat r1 r2 s1 s2 :
    Matches r1 s1 → Matches r2 s2 → Matches (Cat r1 r2) (s1 ++ s2)
| MAltL r1 r2 s : Matches r1 s → Matches (Alt r1 r2) s
| MAltR r1 r2 s : Matches r2 s → Matches (Alt r1 r2) s
| MStarNil r : Matches (Star r) []
| MStarApp r s1 s2 :
    Matches r s1 → Matches (Star r) s2 → Matches (Star r) (s1 ++ s2).

(** [narrows P r r']: [r'] is [r] with other character classes, which hold
    at least the characters of [P] that the classes of [r] hold. *)
Inductive narrows (P : ascii → bool) : regex → regex → Prop :=
| NFail : narrows P Fail Fail
| NEps : narrows P Eps Eps
| NChars negated ranges negated' ranges' :
    (∀ ch, P ch = true → in_class negated ranges ch = true →
           in_class negated' ranges' ch = true) →
    narrows P (Chars negated ranges) (Chars negated' ranges')
| NCat r1 r2 r1' r2' :
    narrows P r1 r1' → narrows P r2 r2' → narrows P (Cat r1 r2) (Cat r1' r2')
| NAlt r1 r2 r1' r2' :
    narrows P r1 r1' → narrows P r2 r2' → narrows P (Alt r1 r2) (Alt r1' r2')
| NStar r r' : narrows P r r' → narrows P (Star r) (Star r').

End RegExp.

(** ** What the code takes from its platform *)

(** Node's [path], [fs] and [JSON], and the [deep-extend] package.
    [fs_stat] answers [stat.isDirectory()], [fs_readFile] answers
    [contents.toString()], and [deepCopy v] is the content of
    [deepExtend({}, v)]. *)
Class Platform : Type := {
  path_resolve : string → string;
  path_join : string → string → string;
  path_extname : string → string;
  fs_stat : string → result bool;
  fs_exists : string → bool;
  fs_readFile : string → result string;
  JSON_parse : string → result value;
  JSON_stringify : value → string;
  deepCopy : value → value
}.

(** The two classifiers that [lib/json.js] requires from [./util], kept
    abstract: [isAsset] on a file name, and [isComponent] on the path of a
    [component.json] (the answer it passes to its callback). *)
Class Classifiers : Type := {
  isAsset : value → bool;
  isComponent : string → bool
}.

(** The options object.  [None] is an option that was not given, [Some b] one
    that was given with a truthy ([true]) or falsy value.  A call without
    options is a call with [no_options]. *)
Record Options : Type := {
  opt_normalize : option bool;
  opt_validate : option bool;
  opt_clone : option bool;
  opt_enforceNameExists : option bool;
  opt_strictNames : option bool
}.

Definition no_options : Options :=
  {| opt_normalize := None; opt_validate := None; opt_clone := None;
     opt_enforceNameExists := None; opt_strictNames := None |}.

(** ** Objects that are shared and updated in place

    [normalize] writes into the manifest it is given, so manifests that are
    passed around live in a store and are named by their location. *)

Abbreviation loc := nat.
Abbreviation heap := (gmap nat value).

Definition deref (h : heap) (l : loc) : value := default VUndefined (h !! l).

(** [Array.prototype.forEach] with a body that updates the variables it
    closes over ([acc]) and may throw. *)
Fixpoint forEach {A S : Type} (body : S → A → result S) (l : list A) (acc : S)
  : result S :=
  match l with
  | [] => Return acc
  | x :: rest => acc' ← body acc x; forEach body rest acc'
  end.

(** [Array.prototype.join] *)
Fixpoint join (sep : string) (l : list string) : string :=
  match l with
  | [] => EmptyString
  | [x] => x
  | x :: rest => x +:+ sep +:+ join sep rest
  end.

(** ** The patterns and messages both revisions share *)

Module Rules.
Import RegExp.

Definition c (s : string) : ascii :=
  match s with String a _ => a | EmptyString => Ascii.zero end.

(** [[A-z]] and [[A-z0-9]] *)
Definition Az : regex := Chars false [(c "A", c "z")].
Definition Az09 : regex := Chars false [(c "A", c "z"); (c "0", c "9")].
Definition lit (s : string) : regex := Chars false [(c s, c s)].

(** [/[^A-z0-9\.\-]*/] *)
Definition re_invalid_character : pattern :=
  Pattern false
    (Star (Chars true [(c "A", c "z"); (c "0", c "9"); (c ".", c "."); (c "-", c "-")]))
    false.

(** [/^[A-z]?([A-z](([A-z0-9]\-?)* ([A-z0-9]\.?)* )* [A-z0-9])?$/], written
    here with blanks after the stars of the three repeated groups *)
Definition re_structure : pattern :=
  Pattern true
    (Cat (Opt Az)
         (Opt (Cat Az
              (Cat (Star (Cat (Star (Cat Az09 (Opt (lit "-"))))
                              (Star (Cat Az09 (Opt (lit "."))))))
                   Az09))))
    true.

(** [/[A-Z]/], [/^[a-z]/], [/[a-z]$/] and [/[a-z]/] *)
Definition re_upper : pattern := Pattern false (Chars false [(c "A", c "Z")]) false.
Definition re_starts_lower : pattern := Pattern true (Chars false [(c "a", c "z")]) false.
Definition re_ends_lower : pattern := Pattern false (Chars false [(c "a", c "z")]) true.
Definition re_lower : pattern := Pattern false (Chars false [(c "a", c "z")]) false.

(** [/\.\./] *)
Definition re_traversal : pattern := Pattern false (Cat (lit ".") (lit ".")) false.

(** [/[*]/] and [/[.]min[.][^/]+$/] *)
Definition re_glob : pattern := Pattern false (lit "*") false.
Definition re_minified : pattern :=
  Pattern false
    (Cat (lit ".") (Cat (lit "m") (Cat (lit "i") (Cat (lit "n") (Cat (lit ".")
         (Plus (Chars true [(c "/", c "/")])))))))
    true.

(** The four checks of the [if (strictNames)] block, in the order of the
    source; the block is the same in the two revisions. *)
Definition check_no_upper (name : string) : result unit :=
  throw_if (test re_upper name) "The name contains upper case letters".

Definition check_starts_lower (name : string) : result unit :=
  throw_if (negb (test re_starts_lower name))
    "The name has to start with a lower case character from a to z".

Definition check_ends_lower (name : string) : result unit :=
  throw_if (negb (test re_ends_lower name))
    "The name has to end with a lower case character from a to z".

Definition check_has_lower (name : string) : result unit :=
  throw_if (negb (test re_lower name))
    "The name has to end with a lower case character from a to z".

Definition strict_checks (name : string) : result unit :=
  check_no_upper name;;
  check_starts_lower name;;
  check_ends_lower name;;
  check_has_lower name.

(** The checks every name goes through, strict or not, once it is known to
    be a non-empty string (or has been turned into one). *)
Definition check_invalid_character (name : string) : result unit :=
  throw_if (negb (test re_invalid_character name))
    "The name contains an invalid character".

Definition check_structure (name : string) : result unit :=
  throw_if (negb (test re_structure name)) ("The name is malformed: " +:+ name).

(** The main-file groups [ext2files]: one entry per extension, in the order
    the extensions were first met. *)
Fixpoint add_file (ext : string) (filename : value)
         (ext2files : list (string * list value)) : list (string * list value) :=
  match ext2files with
  | [] => [(ext, [filename])]
  | (e, files) :: rest =>
      if String.eqb ext e then (e, files ++ [filename]) :: rest
      else (e, files) :: add_file ext filename rest
  end.

End Rules.

(** [path.extname(filename)]: Node's [path] functions reject what is not a
    string. *)
Definition extname `{Platform} (filename : value) : result string :=
  match filename with
  | VStr s => Return (path_extname s)
  | _ => Throw TypeError
  end.

(** The double quote, for the messages that quote a field name. *)
Definition dq : string := String (ascii_of_nat 34) EmptyString.

Definition msg_main_type : string :=
  "The " +:+ dq +:+ "main" +:+ dq +:+ " field has to be either an Array or a String".
Definition msg_main_strings : string :=
  "The " +:+ dq +:+ "main" +:+ dq +:+ " Array has to contain only Strings".
Definition msg_main_globs : string :=
  "The " +:+ dq +:+ "main" +:+ dq +:+ " field cannot contain globs (example: "
  +:+ dq +:+ "*.js" +:+ dq +:+ ")".
Definition msg_main_minified : string :=
  "The " +:+ dq +:+ "main" +:+ dq +:+ " field cannot contain minified files".
Definition msg_main_assets : string :=
  "The " +:+ dq +:+ "main" +:+ dq
  +:+ " field cannot contain font, image, audio, or video files".
Definition msg_main_multiple `{Platform} (ext : string) (files : list value) : string :=
  "The " +:+ dq +:+ "main" +:+ dq
  +:+ " field has to contain only 1 file per filetype; found multiple "
  +:+ ext +:+ " files: " +:+ JSON_stringify (VArr files).
Definition msg_description : string :=
  "The description is too long. 140 characters should be more than enough".
Definition msg_name_too_long : string :=
  "The name is too long. 50 characters should be more than enough".
Definition msg_traversal : string :=
  "Directory traversing in dependency paths is not allowed".

(** [v && v.length], as a condition *)
Definition has_length (v : value) : result bool :=
  if truthy v then len ← get_prop v "length"; Return (truthy len)
  else Return false.

(** ** [lib/json.js] *)

Module Json.
Import RegExp Rules.

Section WithPlatform.
Context `{Engine} `{Platform} `{Classifiers}.

Definition possibleJsons : list string :=
  ["bower.json"; "component.json"; ".bower.json"].

Definition throwOnError (errors : list error) : result unit :=
  match errors with
  | e :: _ => Throw e
  | [] => Return tt
  end.

Definition findPackageNameErrors (name : value) (strictNames : bool)
  : result (list error) :=
  let errors : list error := [] in
  if negb (truthy name) then
    Throw (createError "No name property set" "EINVALID")
  else
    match name with
    | VStr name =>
        throw_if (50 <=? Z.of_nat (String.length name)) msg_name_too_long;;
        check_invalid_character name;;
        check_structure name;;
        (if strictNames then strict_checks name else Return tt);;
        Return errors
    | _ => Throw (createError "Package name is not a string" "EINVALID")
    end.

(** The body of [Object.keys(dependencies).forEach]; it updates [errors]. *)
Definition dependency_entry (dependencies : value) (strictNames : bool)
           (errors : list error) (name : string) : result (list error) :=
  resource ← get_prop dependencies name;
  found ← findPackageNameErrors (VStr name) strictNames;
  let errors := errors ++ found in
  s ← ToString resource;
  Return (if test re_traversal s
          then errors ++ [createError msg_traversal "EINVALID"]
          else errors).

Definition findDependencyErrors (dependencies : value) (strictNames : bool)
  : result (list error) :=
  let errors : list error := [] in
  if is_object dependencies then
    forEach (dependency_entry dependencies strictNames)
            (map fst (own_props dependencies)) errors
  else Return errors.

(** The body of [main.forEach]; it updates [errors] and [ext2files]. *)
Definition main_entry (acc : list error * list (string * list value))
           (filename : value) : result (list error * list (string * list value)) :=
  let '(errors, ext2files) := acc in
  let errors :=
    if negb (is_string filename)
    then errors ++ [createError msg_main_strings "EINVALID"] else errors in
  s ← ToString filename;
  let errors :=
    if test re_glob s
    then errors ++ [createError msg_main_globs "EINVALID"] else errors in
  let errors :=
    if test re_minified s
    then errors ++ [createError msg_main_minified "EINVALID"] else errors in
  let errors :=
    if isAsset filename
    then errors ++ [createError msg_main_assets "EINVALID"] else errors in
  ext ← extname filename;
  Return (errors,
          if 2 <=? Z.of_nat (String.length ext)
          then add_file ext filename ext2files else ext2files).

(** The body of [Object.keys(ext2files).forEach]. *)
Definition group_entry (errors : list error) (group : string * list value)
  : list error :=
  let '(ext, files) := group in
  if 1 <? Z.of_nat (length files)
  then errors ++ [createError (msg_main_multiple ext files) "EINVALID"]
  else errors.

Definition findErrors (json : value) (options : Options) : result (list error) :=
  let errors : list error := [] in
  let enforceNameExists := default true (opt_enforceNameExists options) in
  let strictNames := default true (opt_strictNames options) in
  errors ←
    (if enforceNameExists then
       name ← get_prop json "name";
       named ← has_length name;
       Return (if negb named
               then errors ++ [createError "The name must not be empty" "EINVALID"]
               else errors)
     else Return errors);
  name ← get_prop json "name";
  errors ←
    (if truthy name then
       found ← findPackageNameErrors name strictNames;
       Return (errors ++ found)
     else Return errors);
  description ← get_prop json "description";
  too_long ←
    (if truthy description then
       len ← get_prop description "length"; js_gt len 140
     else Return false);
  let errors :=
    if (too_long : bool) then errors ++ [createError msg_description "EINVALID"]
    else errors in
  main ← get_prop json "main";
  errors ←
    (if is_defined main then
       let main := if is_string main then VArr [main] else main in
       let errors :=
         if negb (is_array main)
         then errors ++ [createError msg_main_type "EINVALID"] else errors in
       match main with
       | VArr items =>
           acc ← forEach main_entry items (errors, []);
           let '(errors, ext2files) := acc in
           Return (fold_left group_entry ext2files errors)
       | _ => Throw TypeError
       end
     else Return errors);
  (* the results of the two [errors.concat] calls are not kept *)
  dependencies ← get_prop json "dependencies";
  _ ← findDependencyErrors dependencies strictNames;
  devDependencies ← get_prop json "devDependencies";
  _ ← findDependencyErrors devDependencies strictNames;
  Return errors.

Definition validate (json : value) (options : Options) : result value :=
  errors ← findErrors json options;
  throwOnError errors;;
  Return json.

Definition validateDependencies (dependencies : value) (strictNames : bool)
  : result unit :=
  errors ← findDependencyErrors dependencies strictNames;
  throwOnError errors.

Definition validatePackageName (name : value) (strictNames : bool)
  : result value :=
  errors ← findPackageNameErrors name strictNames;
  throwOnError errors;;
  Return (VBool true).

(** [normalize] writes into the object it is given and returns it. *)
Definition normalize (json : loc) (h : heap) : result loc * heap :=
  match get_prop (deref h json) "main" with
  | Throw e => (Throw e, h)
  | Return main =>
      if is_string main then
        match deref h json with
        | VObj props =>
            (Return json, <[json := VObj (assign_prop "main" (VArr [main]) props)]> h)
        | _ => (Return json, h)
        end
      else (Return json, h)
  end.

(** [f(f(json))] for a function that, like [normalize], takes and
    returns an object of the store. *)
Definition twice (f : loc → heap → result loc * heap) (json : loc) (h : heap)
  : result loc * heap :=
  match f json h with
  | (Return json', h') => f json' h'
  | (Throw e, h') => (Throw e, h')
  end.

Definition parse (json : loc) (originalOptions : Options) (h : heap)
  : result loc * heap :=
  let opt_n := default false (opt_normalize originalOptions) in
  let opt_v := default true (opt_validate originalOptions) in
  let opt_c := default false (opt_clone originalOptions) in
  let '(json, h) :=
    if opt_c then
      let copy := fresh (dom h) in (copy, <[copy := deepCopy (deref h json)]> h)
    else (json, h) in
  match (if opt_v then validate (deref h json) originalOptions
         else Return (deref h json)) with
  | Throw e => (Throw e, h)
  | Return _ =>
      if opt_n then
        match normalize json h with
        | (Throw e, h') => (Throw e, h')
        | (Return _, h') => (Return json, h')
        end
      else (Return json, h)
  end.

(** [find]: what the callback is called with.  [find_in] is the function
    once [files] is a list; [find] adds the default for a call without
    one. *)
Fixpoint find_in (folder : string) (files : list string) : result string :=
  match files with
  | [] =>
      Throw (createError ("None of " +:+ join ", " possibleJsons
                          +:+ " were found in " +:+ folder) "ENOENT")
  | first :: rest =>
      let file := path_resolve (path_join folder first) in
      if negb (fs_exists file) then find_in folder rest
      else if negb (String.eqb first "component.json") then Return file
      else if isComponent file then find_in folder rest
      else Return file
  end.

Definition find (folder : string) (files : option (list string)) : result string :=
  find_in folder (default possibleJsons files).

(** [read]: what the callback is called with, [None] when [fuel] nested
    directories were not enough to reach a file. *)
Fixpoint read (fuel : nat) (file : string) (options : Options) (h : heap)
  : option (result (loc * string) * heap) :=
  match fuel with
  | O => None
  | S fuel =>
      match fs_stat file with
      | Throw err => Some (Throw err, h)
      | Return true =>
          match find file None with
          | Throw err => Some (Throw err, h)
          | Return file => read fuel file options h
          end
      | Return false =>
          match fs_readFile file with
          | Throw err => Some (Throw err, h)
          | Return contents =>
              match JSON_parse contents with
              | Throw err =>
                  Some (Throw (set_code "EMALFORMED"
                                 (set_file (path_resolve file) err)), h)
              | Return parsed =>
                  let json := fresh (dom h) in
                  match parse json options (<[json := parsed]> h) with
                  | (Throw err, h') =>
                      Some (Throw (set_file (path_resolve file) err), h')
                  | (Return json, h') => Some (Return (json, file), h')
                  end
              end
          end
      end
  end.

End WithPlatform.
End Json.

(** ** The earlier revision of [lib/json.js]

    Its [read], [parse], [normalize] and [find] read as those of [Json] do
    ([parse] calling the [validate] below); the three validators throw at
    the first violation. *)

Module Part000.
Import RegExp Rules.

Section WithPlatform.
Context `{Engine} `{Platform} `{Classifiers}.

(** A name that is not a string is not turned away: its [length] is
    compared as it is, and the patterns are tested on its string form. *)
Definition validatePackageName (name : value) (strictNames : bool) : result unit :=
  if negb (truthy name) then
    Throw (createError "No name property set" "EINVALID")
  else
    len ← get_prop name "length";
    too_long ← js_ge len 50;
    throw_if too_long msg_name_too_long;;
    name ← ToString name;
    check_invalid_character name;;
    check_structure name;;
    if strictNames then strict_checks name else Return tt.

(** The body of [Object.keys(dependencies).forEach]. *)
Definition dependency_entry (dependencies : value) (strictNames : bool)
           (_ : unit) (name : string) : result unit :=
  resource ← get_prop dependencies name;
  validatePackageName (VStr name) strictNames;;
  s ← ToString resource;
  throw_if (test re_traversal s) msg_traversal.

Definition validateDependencies (dependencies : value) (strictNames : bool)
  : result unit :=
  if is_object dependencies then
    forEach (dependency_entry dependencies strictNames)
            (map fst (own_props dependencies)) tt
  else Return tt.

(** The body of [main.forEach]; it updates [ext2files]. *)
Definition main_entry (ext2files : list (string * list value)) (filename : value)
  : result (list (string * list value)) :=
  throw_if (negb (is_string filename)) msg_main_strings;;
  s ← ToString filename;
  throw_if (test re_glob s) msg_main_globs;;
  throw_if (test re_minified s) msg_main_minified;;
  throw_if (isAsset filename) msg_main_assets;;
  ext ← extname filename;
  Return (if 2 <=? Z.of_nat (String.length ext)
          then add_file ext filename ext2files else ext2files).

(** The body of [Object.keys(ext2files).forEach]. *)
Definition group_entry (_ : unit) (group : string * list value) : result unit :=
  let '(ext, files) := group in
  throw_if (1 <? Z.of_nat (length files)) (msg_main_multiple ext files).

Definition validate (json : value) (options : Options) : result value :=
  let enforceNameExists := default true (opt_enforceNameExists options) in
  let strictNames := default true (opt_strictNames options) in
  (if enforceNameExists then
     name ← get_prop json "name";
     named ← has_length name;
     throw_if (negb named) "The name must not be empty"
   else Return tt);;
  name ← get_prop json "name";
  (if truthy name then validatePackageName name strictNames else Return tt);;
  description ← get_prop json "description";
  too_long ←
    (if truthy description then
       len ← get_prop description "length"; js_gt len 140
     else Return false);
  throw_if too_long msg_description;;
  main ← get_prop json "main";
  (if is_defined main then
     let main := if is_string main then VArr [main] else main in
     throw_if (negb (is_array main)) msg_main_type;;
     match main with
     | VArr items =>
         ext2files ← forEach main_entry items [];
         forEach group_entry ext2files tt
     | _ => Throw TypeError
     end
   else Return tt);;
  dependencies ← get_prop json "dependencies";
  validateDependencies dependencies strictNames;;
  devDependencies ← get_prop json "devDependencies";
  validateDependencies devDependencies strictNames;;
  Return json.

End WithPlatform.
End Part000.

(** ** The name validators without the fourth strict check

    The two validators again, with [check_has_lower] left out of the strict
    block and nothing else changed: what the validators are compared with
    to say that the fourth check cannot fail. *)

Module WithoutFourthCheck.
Import RegExp Rules.

Definition strict_checks (name : string) : result unit :=
  check_no_upper name;;
  check_starts_lower name;;
  check_ends_lower name.

Definition findPackageNameErrors (name : value) (strictNames : bool)
  : result (list error) :=
  let errors : list error := [] in
  if negb (truthy name) then
    Throw (createError "No name property set" "EINVALID")
  else
    match name with
    | VStr name =>
        throw_if (50 <=? Z.of_nat (String.length name)) msg_name_too_long;;
        check_invalid_character name;;
        check_structure name;;
        (if strictNames then strict_checks name else Return tt);;
        Return errors
    | _ => Throw (createError "Package name is not a string" "EINVALID")
    end.

Definition validatePackageName `{Engine} (name : value) (strictNames : bool)
  : result unit :=
  if negb (truthy name) then
    Throw (createError "No name property set" "EINVALID")
  else
    len ← get_prop name "length";
    too_long ← js_ge len 50;
    throw_if too_long msg_name_too_long;;
    name ← ToString name;
    check_invalid_character name;;
    check_structure name;;
    if strictNames then strict_checks name else Return tt.

End WithoutFourthCheck.

(** ** The words of the specification

    Definitions that follow the text of the specification rather than the
    source, to state what the source is compared with. *)

Module Spec.
Import RegExp.

Definition is_upper (ch : ascii) : bool :=
  (nat_of_ascii (Rules.c "A") <=? nat_of_ascii ch)%nat
  && (nat_of_ascii ch <=? nat_of_ascii (Rules.c "Z"))%nat.

Definition is_lower (ch : ascii) : bool :=
  (nat_of_ascii (Rules.c "a") <=? nat_of_ascii ch)%nat
  && (nat_of_ascii ch <=? nat_of_ascii (Rules.c "z"))%nat.

Definition is_digit (ch : ascii) : bool :=
  (nat_of_ascii (Rules.c "0") <=? nat_of_ascii ch)%nat
  && (nat_of_ascii ch <=? nat_of_ascii (Rules.c "9"))%nat.

(** The charset [[A-Za-z0-9.-]] of rule 3 *)
Definition in_charset (ch : ascii) : bool :=
  is_upper ch || is_lower ch || is_digit ch
  || Ascii.eqb ch (Rules.c ".") || Ascii.eqb ch (Rules.c "-").

Definition has_upper (s : string) : bool :=
  existsb is_upper (list_ascii_of_string s).

Definition has_lower (s : string) : bool :=
  existsb is_lower (list_ascii_of_string s).

Definition starts_lower (s : string) : bool :=
  match list_ascii_of_string s with
  | ch :: _ => is_lower ch
  | [] => false
  end.

Definition ends_lower (s : string) : bool :=
  match rev (list_ascii_of_string s) with
  | ch :: _ => is_lower ch
  | [] => false
  end.

(** [s] contains the substring [sub] *)
Definition contains (sub s : string) : Prop :=
  ∃ pre post,
    list_ascii_of_string s = pre ++ list_ascii_of_string sub ++ post.

(** The structural grammar of rule 4, with the letters written [A-Za-z] as
    the specification has them. *)
Definition letter : regex := Chars false [(Rules.c "A", Rules.c "Z"); (Rules.c "a", Rules.c "z")].
Definition alnum : regex :=
  Chars false [(Rules.c "A", Rules.c "Z"); (Rules.c "a", Rules.c "z");
               (Rules.c "0", Rules.c "9")].

Definition structural_grammar : pattern :=
  Pattern true
    (Cat (Opt letter)
         (Opt (Cat letter
              (Cat (Star (Cat (Star (Cat alnum (Opt (Rules.lit "-"))))
                              (Star (Cat alnum (Opt (Rules.lit "."))))))
                   alnum))))
    true.

(** The strict package-name grammar of section 4.1: the structural grammar,
    no upper case letter, a lower case letter first and last. *)
Definition strict_name (s : string) : bool :=
  test structural_grammar s && negb (has_upper s)
  && starts_lower s && ends_lower s.

(** [s] is made of characters of the charset only. *)
Definition charset_only (s : string) : bool :=
  forallb in_charset (list_ascii_of_string s).

(** What can be said of a name that strict mode lets through: it is not
    empty, shorter than 50 characters, without upper case letter, with a
    lower case letter first and last; and it is a word of the strict grammar
    if its characters are those of the charset. *)
Definition strict_casing (s : string) : Prop :=
  s ≠ EmptyString ∧ (String.length s < 50)%nat ∧ has_upper s = false
  ∧ starts_lower s = true ∧ ends_lower s = true
  ∧ (charset_only s = true → strict_name s = true).

Definition is_EINVALID (e : error) : Prop := code e = Some "EINVALID".

(** A dependency mapping, seen through the names [Object.keys] lists: its
    resources are strings, and one of them contains [..]. *)
Definition traversing (deps : value) (names : list string) : Prop :=
  (∀ name, In name names → ∃ s, get_prop deps name = Return (VStr s))
  ∧ ∃ name s, In name names ∧ get_prop deps name = Return (VStr s)
              ∧ contains ".." s.

(** A candidate of the locator is acceptable when it exists and is not a
    [component.json] that the classifier takes for a legacy component
    file. *)
Definition acceptable `{Platform} `{Classifiers} (folder name : string) : bool :=
  let file := path_resolve (path_join folder name) in
  fs_exists file && negb (String.eqb name "component.json" && isComponent file).

End Spec.

(** ** A platform to run the definitions on *)

Module Sample.

Definition engine : Engine :=
  {| NumberToString := λ n, string_of_nat (Z.to_nat n);
     StringToNumber := λ _, None |}.

(** A directory [/pkg] that holds a [component.json], which is a
    component(1) file, and a [.bower.json], which is the manifest of
    [My-Pkg]; and a file [/broken/bower.json] that is not JSON.  The parser
    knows these two contents only. *)
Definition platform : Platform :=
  {| path_resolve := λ p, p;
     path_join := λ a b, a +:+ "/" +:+ b;
     path_extname := λ p,
       if String.eqb p "a.js" then ".js"
       else if String.eqb p "b.js" then ".js"
       else if String.eqb p "a.css" then ".css" else EmptyString;
     fs_stat := λ p, Return (String.eqb p "/pkg");
     fs_exists := λ p,
       String.eqb p "/pkg/component.json" || String.eqb p "/pkg/.bower.json"
       || String.eqb p "/broken/bower.json";
     fs_readFile := λ p,
       if String.eqb p "/pkg/.bower.json" then Return "manifest"
       else Return "{";
     JSON_parse := λ s,
       if String.eqb s "manifest"
       then Return (VObj [("name", VStr "My-Pkg"); ("main", VStr "a.js")])
       else Throw {| message := "SyntaxError"; code := None; file := None |};
     JSON_stringify := λ _, "[...]";
     deepCopy := λ v, v |}.

Definition classifiers : Classifiers :=
  {| isAsset := λ _, false;
     isComponent := λ p, String.eqb p "/pkg/component.json" |}.

End Sample.

(** ** The shape of words

    What is said below of the words of the structural pattern: the
    characters they are made of, and where their punctuation may stand. *)

Module Words.
Import RegExp.

(** The characters that some class of [r] holds. *)
Fixpoint alphabet (r : regex) (ch : ascii) : bool :=
  match r with
  | Fail | Eps => false
  | Chars negated ranges => in_class negated ranges ch
  | Cat r1 r2 | Alt r1 r2 => alphabet r1 ch || alphabet r2 ch
  | Star r1 => alphabet r1 ch
  end.

(** The hyphen and the dot. *)
Definition is_separator (ch : ascii) : bool :=
  Ascii.eqb ch (Rules.c "-") || Ascii.eqb ch (Rules.c ".").

(** No two separators stand side by side. *)
Fixpoint well_separated (w : list ascii) : bool :=
  match w with
  | a :: (b :: _) as rest => negb (is_separator a && is_separator b) && well_separated rest
  | _ => true
  end.

(** [w] does not begin with a separator. *)
Definition starts_clean (w : list ascii) : bool :=
  match w with
  | a :: _ => negb (is_separator a)
  | [] => true
  end.

(** [w] does not end with a separator. *)
Definition ends_clean (w : list ascii) : bool := starts_clean (rev w).

(** [w] neither begins with a separator nor has two side by side. *)
Definition clean (w : list ascii) : Prop :=
  starts_clean w = true ∧ well_separated w = true.

(** [[A-z]]: what a name may begin with. *)
Definition is_Az (ch : ascii) : bool :=
  in_class false [(Rules.c "A", Rules.c "z")] ch.

(** [[A-z0-9.-]]: what a name may be made of. *)
Definition is_name_char (ch : ascii) : bool :=
  in_class false [(Rules.c "A", Rules.c "z"); (Rules.c "0", Rules.c "9");
                  (Rules.c ".", Rules.c "."); (Rules.c "-", Rules.c "-")] ch.

End Words.

(** ** What the validators are said to accept *)

Module Accepts.

(** The resources of the names listed are strings without [..]. *)
Definition plain_resources (deps : value) (names : list string) : Prop :=
  ∀ name s, In name names → get_prop deps name = Return (VStr s) →
            ¬ Spec.contains ".." s.

Definition names_accepted `{Engine} (strictNames : bool) (names : list string) : Prop :=
  ∀ name, In name names →
          Part000.validatePackageName (VStr name) strictNames = Return tt.

(** The file name has a [*] in it. *)
Definition has_glob (f : string) : bool :=
  existsb (Ascii.eqb (Rules.c "*")) (list_ascii_of_string f).

(** The file name ends with [.min.] and an extension: one character or
    more, none of them a slash. *)
Definition minified (f : string) : Prop :=
  ∃ pre ext,
    list_ascii_of_string f = pre ++ list_ascii_of_string ".min." ++ ext
    ∧ ext ≠ []
    ∧ forallb (λ ch, negb (Ascii.eqb ch (Rules.c "/"))) ext = true.

(** The entries of [main]: the string itself, or the items of the array. *)
Definition main_files (main : value) : list value :=
  match main with
  | VStr _ => [main]
  | VArr items => items
  | _ => []
  end.

(** The extensions of two characters or more among those of the entries. *)
Definition extension `{Platform} (x : value) : string :=
  match x with VStr f => path_extname f | _ => EmptyString end.

Definition long_extensions `{Platform} (items : list value) : list string :=
  List.filter (λ ext, 2 <=? Z.of_nat (String.length ext)) (map extension items).

(** The files that [ext2files] holds for an extension. *)
Fixpoint group_of (ext : string) (ext2files : list (string * list value))
  : list value :=
  match ext2files with
  | [] => []
  | (e, files) :: rest => if String.eqb ext e then files else group_of ext rest
  end.

(** An error as the validators make them: without a file, and either with
    the code EINVALID or the engine's TypeError. *)
Definition validation_error (e : error) : Prop :=
  file e = None ∧ (code e = Some "EINVALID" ∨ e = TypeError).

(** [m] throws nothing but errors of [V]. *)
Definition throws_only {A : Type} (V : error → Prop) (m : result A) : Prop :=
  ∀ e, m = Throw e → V e.

End Accepts.

(** ** Manifests, stores and options to run the code on *)
Module Fixtures.
Definition manifest : value :=
  VObj [("name", VStr "foo"); ("description", VStr "d");
        ("main", VArr [VStr "a.js"; VStr "a.css"]);
        ("dependencies", VObj [("bar", VStr "1.0.0")])].

Definition plain : list (string * value) :=
  [("name", VStr "foo"); ("main", VStr "a.js")].

Definition store : heap := {[ 0%nat := VObj plain ]}.

Definition cloning : Options :=
  {| opt_normalize := Some true; opt_validate := None; opt_clone := Some true;
     opt_enforceNameExists := None; opt_strictNames := None |}.

Definition in_place : Options :=
  {| opt_normalize := Some true; opt_validate := None; opt_clone := None;
     opt_enforceNameExists := None; opt_strictNames := None |}.

Definition lenient : Options :=
  {| opt_normalize := None; opt_validate := None; opt_clone := None;
     opt_enforceNameExists := None; opt_strictNames := Some false |}.

Definition fifty : string :=
  "aaaaaaaaaaaaaaaaaaaaaaaaaaaaaaaaaaaaaaaaaaaaaaaaaa".
End Fixtures.

(** * Properties *)

(** ** The matcher and the words of a pattern *)

Module RegExpFacts.
Import RegExp.

Lemma Matches_Fail w : Matches Fail w ↔ False.
Proof. split; [intros Hm; inversion Hm | tauto]. Qed.

Lemma Matches_Eps w : Matches Eps w ↔ w = [].
Proof. split; [intros Hm; inversion Hm; auto | intros ->; constructor]. Qed.

Lemma Matches_Chars negated ranges w :
  Matches (Chars negated ranges) w ↔
  ∃ ch, w = [ch] ∧ in_class negated ranges ch = true.
Proof.
  split.
  - intros Hm. inversion Hm; subst. eauto.
  - intros (ch & -> & Hc). constructor; auto.
Qed.

Lemma Matches_Cat r1 r2 w :
  Matches (Cat r1 r2) w ↔
  ∃ s1 s2, w = s1 ++ s2 ∧ Matches r1 s1 ∧ Matches r2 s2.
Proof.
  split.
  - intros Hm. inversion Hm; subst. eauto.
  - intros (s1 & s2 & -> & H1 & H2). constructor; auto.
Qed.

Lemma Matches_Alt r1 r2 w :
  Matches (Alt r1 r2) w ↔ Matches r1 w ∨ Matches r2 w.
Proof.
  split.
  - intros Hm. inversion Hm; subst; auto.
  - intros [H1|H2]; [apply MAltL | apply MAltR]; auto.
Qed.

Lemma nullable_Matches r : nullable r = true ↔ Matches r [].
Proof.
  split.
  - induction r; simpl; intros Hn; try discriminate.
    + constructor.
    + apply andb_prop in Hn as [H1 H2].
      apply Matches_Cat. exists [], []. auto.
    + apply Matches_Alt. apply orb_prop in Hn as [H1|H2]; auto.
    + constructor.
  - intros Hm. remember (@nil ascii) as w eqn:Hw.
    induction Hm; simpl; auto; try discriminate.
    + apply app_eq_nil in Hw as [-> ->]. rewrite IHHm1, IHHm2; auto.
    + rewrite IHHm; auto.
    + rewrite IHHm; auto using orb_true_r.
Qed.

Lemma Matches_star_cons r c s :
  Matches (Star r) (c :: s) →
  ∃ s1 s2, s = s1 ++ s2 ∧ Matches r (c :: s1) ∧ Matches (Star r) s2.
Proof.
  intros Hm. remember (Star r) as r' eqn:Hr. remember (c :: s) as w eqn:Hw.
  induction Hm; try discriminate.
  injection Hr as ->. destruct s1 as [|c' s1']; simpl in Hw.
  - apply IHHm2; auto.
  - injection Hw as Hc Hs. subst. eauto.
Qed.

Lemma deriv_Matches c r s : Matches (deriv c r) s ↔ Matches r (c :: s).
Proof.
  revert s. induction r as [| |negated ranges|r1 IH1 r2 IH2|r1 IH1 r2 IH2|r IH];
    intros s; simpl.
  - rewrite !Matches_Fail. tauto.
  - rewrite Matches_Fail, Matches_Eps. split; [tauto | discriminate].
  - rewrite Matches_Chars.
    destruct (in_class negated ranges c) eqn:Hc.
    + rewrite Matches_Eps. split.
      * intros ->. eauto.
      * intros (ch & Heq & _). injection Heq; auto.
    + rewrite Matches_Fail. split; [tauto|].
      intros (ch & Heq & Hch). injection Heq as <- _. congruence.
  - assert (Hcat : Matches (Cat (deriv c r1) r2) s ↔
                   ∃ s1 s2, s = s1 ++ s2 ∧ Matches r1 (c :: s1) ∧ Matches r2 s2).
    { rewrite Matches_Cat. split; intros (s1 & s2 & Hs & H1 & H2);
        exists s1, s2; repeat split; auto; apply IH1; auto. }
    rewrite (Matches_Cat r1 r2 (c :: s)).
    destruct (nullable r1) eqn:Hn.
    + rewrite Matches_Alt, Hcat, IH2. split.
      * intros [(s1 & s2 & -> & H1 & H2)|H2].
        -- exists (c :: s1), s2. auto.
        -- exists [], (c :: s). repeat split; auto. apply nullable_Matches; auto.
      * intros (s1 & s2 & Heq & H1 & H2). destruct s1 as [|c' s1']; simpl in Heq.
        -- subst. auto.
        -- injection Heq as Hc Hs. subst. left. eauto.
    + rewrite Hcat. split.
      * intros (s1 & s2 & -> & H1 & H2). exists (c :: s1), s2. auto.
      * intros (s1 & s2 & Heq & H1 & H2). destruct s1 as [|c' s1']; simpl in Heq.
        -- apply nullable_Matches in H1. congruence.
        -- injection Heq as Hc Hs. subst. eauto.
  - rewrite !Matches_Alt, IH1, IH2. tauto.
  - rewrite Matches_Cat. split.
    + intros (s1 & s2 & -> & H1 & H2).
      change (c :: s1 ++ s2) with ((c :: s1) ++ s2).
      constructor; auto. apply IH; auto.
    + intros Hm. apply Matches_star_cons in Hm as (s1 & s2 & -> & H1 & H2).
      exists s1, s2. repeat split; auto. apply IH; auto.
Qed.

Lemma accepts_Matches r s : accepts r s = true ↔ Matches r s.
Proof.
  revert r. induction s as [|c s IH]; intros r; simpl.
  - apply nullable_Matches.
  - rewrite IH. apply deriv_Matches.
Qed.

Lemma Matches_any s : Matches (Star any) s.
Proof.
  induction s as [|c s IH].
  - constructor.
  - change (c :: s) with ([c] ++ s). constructor; auto. constructor. reflexivity.
Qed.

(** A pattern without anchors is found in [s] when one of the substrings
    of [s] is a word of its body; an anchor pins the substring to that end
    of [s]. *)
Lemma test_unanchored r s :
  test (Pattern false r false) s = true ↔
  ∃ pre mid post,
    list_ascii_of_string s = pre ++ mid ++ post ∧ Matches r mid.
Proof.
  unfold test, whole; simpl. rewrite accepts_Matches, Matches_Cat. split.
  - intros (pre & rest & Heq & _ & Hb).
    apply Matches_Cat in Hb as (mid & post & -> & Hm & _). eauto.
  - intros (pre & mid & post & Heq & Hm).
    exists pre, (mid ++ post). repeat split; auto using Matches_any.
    apply Matches_Cat. exists mid, post. auto using Matches_any.
Qed.

Lemma test_anchored_start r s :
  test (Pattern true r false) s = true ↔
  ∃ mid post, list_ascii_of_string s = mid ++ post ∧ Matches r mid.
Proof.
  unfold test, whole; simpl. rewrite accepts_Matches, Matches_Cat. split.
  - intros (pre & rest & Heq & Ha & Hb). apply Matches_Eps in Ha as ->.
    apply Matches_Cat in Hb as (mid & post & -> & Hm & _).
    simpl in Heq. eauto.
  - intros (mid & post & Heq & Hm).
    exists [], (mid ++ post). repeat split; auto; [constructor|].
    apply Matches_Cat. exists mid, post. auto using Matches_any.
Qed.

Lemma test_anchored_end r s :
  test (Pattern false r true) s = true ↔
  ∃ pre mid, list_ascii_of_string s = pre ++ mid ∧ Matches r mid.
Proof.
  unfold test, whole; simpl. rewrite accepts_Matches, Matches_Cat. split.
  - intros (pre & rest & Heq & _ & Hb).
    apply Matches_Cat in Hb as (mid & post & -> & Hm & Hp).
    apply Matches_Eps in Hp as ->. rewrite app_nil_r in Heq. eauto.
  - intros (pre & mid & Heq & Hm).
    exists pre, mid. repeat split; auto using Matches_any.
    apply Matches_Cat. exists mid, []. rewrite app_nil_r.
    repeat split; auto. constructor.
Qed.

Lemma test_anchored r s :
  test (Pattern true r true) s = true ↔ Matches r (list_ascii_of_string s).
Proof.
  unfold test, whole; simpl. rewrite accepts_Matches, Matches_Cat. split.
  - intros (pre & rest & Heq & Ha & Hb). apply Matches_Eps in Ha as ->.
    apply Matches_Cat in Hb as (mid & post & -> & Hm & Hp).
    apply Matches_Eps in Hp as ->. rewrite app_nil_r in Heq.
    simpl in Heq. rewrite Heq. auto.
  - intros Hm. exists [], (list_ascii_of_string s). repeat split; [constructor|].
    apply Matches_Cat. exists (list_ascii_of_string s), [].
    rewrite app_nil_r. repeat split; auto. constructor.
Qed.

Lemma narrows_Matches P r r' w :
  narrows P r r' → Matches r w → forallb P w = true → Matches r' w.
Proof.
  intros Hn Hm. revert r' Hn.
  induction Hm as [|negated ranges ch Hc|r1 r2 s1 s2 Hm1 IH1 Hm2 IH2
                   |r1 r2 s Hm IH|r1 r2 s Hm IH|r|r s1 s2 Hm1 IH1 Hm2 IH2];
    intros r' Hn HP; inversion Hn; subst.
  - constructor.
  - constructor. simpl in HP. apply andb_prop in HP as [HP _]. auto.
  - rewrite forallb_app in HP. apply andb_prop in HP as [HP1 HP2].
    constructor; auto.
  - apply MAltL; auto.
  - apply MAltR; auto.
  - constructor.
  - rewrite forallb_app in HP. apply andb_prop in HP as [HP1 HP2].
    constructor; auto; apply IH2; auto; constructor; auto.
Qed.

End RegExpFacts.

(** ** What the patterns of the name rules say *)

Module RulesFacts.
Import RegExp Rules RegExpFacts.

Lemma in_class_one lo hi ch :
  in_class false [(lo, hi)] ch
  = (nat_of_ascii lo <=? nat_of_ascii ch)%nat
    && (nat_of_ascii ch <=? nat_of_ascii hi)%nat.
Proof. unfold in_class, in_range; simpl. rewrite orb_false_r. reflexivity. Qed.

Lemma bool_ext (a b : bool) : (a = true ↔ b = true) → a = b.
Proof. destruct a, b; intros [H1 H2]; try reflexivity; [symmetry|]; auto. Qed.

Lemma existsb_pointwise {A} (f g : A → bool) l :
  (∀ x, f x = g x) → existsb f l = existsb g l.
Proof. intros Hfg. induction l as [|x l IH]; simpl; [|rewrite Hfg, IH]; auto. Qed.

(** A class without anchors: some character of [s] is in the class. *)
Lemma test_class_anywhere lo hi s :
  test (Pattern false (Chars false [(lo, hi)]) false) s
  = existsb (in_class false [(lo, hi)]) (list_ascii_of_string s).
Proof.
  apply bool_ext. rewrite test_unanchored, existsb_exists. split.
  - intros (pre & mid & post & Heq & Hm).
    apply Matches_Chars in Hm as (ch & -> & Hc).
    exists ch. split; auto. rewrite Heq. apply in_or_app. right. left. auto.
  - intros (ch & Hin & Hc). apply in_split in Hin as (pre & post & Heq).
    exists pre, [ch], post. split; auto. constructor; auto.
Qed.

Lemma test_class_start lo hi s :
  test (Pattern true (Chars false [(lo, hi)]) false) s
  = match list_ascii_of_string s with
    | ch :: _ => in_class false [(lo, hi)] ch
    | [] => false
    end.
Proof.
  apply bool_ext. rewrite test_anchored_start. split.
  - intros (mid & post & Heq & Hm).
    apply Matches_Chars in Hm as (ch & -> & Hc). rewrite Heq. auto.
  - destruct (list_ascii_of_string s) as [|ch rest]; [discriminate|].
    intros Hc. exists [ch], rest. split; auto. constructor; auto.
Qed.

Lemma test_class_end lo hi s :
  test (Pattern false (Chars false [(lo, hi)]) true) s
  = match rev (list_ascii_of_string s) with
    | ch :: _ => in_class false [(lo, hi)] ch
    | [] => false
    end.
Proof.
  apply bool_ext. rewrite test_anchored_end. split.
  - intros (pre & mid & Heq & Hm).
    apply Matches_Chars in Hm as (ch & -> & Hc).
    rewrite Heq, rev_app_distr. auto.
  - destruct (rev (list_ascii_of_string s)) as [|ch rest] eqn:Hr; [discriminate|].
    intros Hc. exists (rev rest), [ch]. split; [|constructor; auto].
    rewrite <- (rev_involutive (list_ascii_of_string s)), Hr. reflexivity.
Qed.

Lemma test_re_upper s : test re_upper s = Spec.has_upper s.
Proof.
  unfold re_upper, Spec.has_upper. rewrite test_class_anywhere.
  apply existsb_pointwise. intros ch. apply in_class_one.
Qed.

Lemma test_re_lower s : test re_lower s = Spec.has_lower s.
Proof.
  unfold re_lower, Spec.has_lower. rewrite test_class_anywhere.
  apply existsb_pointwise. intros ch. apply in_class_one.
Qed.

Lemma test_re_starts_lower s : test re_starts_lower s = Spec.starts_lower s.
Proof.
  unfold re_starts_lower, Spec.starts_lower. rewrite test_class_start.
  destruct (list_ascii_of_string s); auto. apply in_class_one.
Qed.

Lemma test_re_ends_lower s : test re_ends_lower s = Spec.ends_lower s.
Proof.
  unfold re_ends_lower, Spec.ends_lower. rewrite test_class_end.
  destruct (rev (list_ascii_of_string s)); auto. apply in_class_one.
Qed.

(** The pattern of the invalid-character rule is found in every string:
    the empty word is one of its words. *)
Lemma test_re_invalid_character s : test re_invalid_character s = true.
Proof.
  unfold re_invalid_character. apply test_unanchored.
  exists [], [], (list_ascii_of_string s). split; auto. constructor.
Qed.

Lemma starts_lower_has_lower s :
  Spec.starts_lower s = true → Spec.has_lower s = true.
Proof.
  unfold Spec.starts_lower, Spec.has_lower.
  destruct (list_ascii_of_string s) as [|ch rest]; [discriminate|].
  simpl. intros ->. reflexivity.
Qed.

Lemma narrows_letter ch :
  Spec.in_charset ch = true →
  in_class false [(c "A", c "z")] ch = true →
  in_class false [(c "A", c "Z"); (c "a", c "z")] ch = true.
Proof.
  destruct ch as [[] [] [] [] [] [] [] []]; vm_compute; intros Hc Hz;
    first [reflexivity | discriminate].
Qed.

Lemma narrows_alnum ch :
  Spec.in_charset ch = true →
  in_class false [(c "A", c "z"); (c "0", c "9")] ch = true →
  in_class false [(c "A", c "Z"); (c "a", c "z"); (c "0", c "9")] ch = true.
Proof.
  destruct ch as [[] [] [] [] [] [] [] []]; vm_compute; intros Hc Hz;
    first [reflexivity | discriminate].
Qed.

(** A word of the structural pattern of the source that is made of
    characters of the charset is a word of the structural grammar of the
    specification. *)
Lemma structure_narrows :
  narrows Spec.in_charset (body re_structure) (body Spec.structural_grammar).
Proof.
  unfold re_structure, Spec.structural_grammar, Opt; simpl.
  repeat (first [ apply NCat | apply NAlt | apply NStar | apply NEps ]);
    apply NChars; auto using narrows_letter, narrows_alnum.
Qed.

Lemma test_structure_charset s :
  Spec.charset_only s = true → test re_structure s = true →
  test Spec.structural_grammar s = true.
Proof.
  intros Hc Hre. apply test_anchored. apply test_anchored in Hre.
  exact (narrows_Matches _ _ _ _ structure_narrows Hre Hc).
Qed.

End RulesFacts.

(** ** The name validators *)

Section NameValidator.
Import RegExp Rules RulesFacts.
Context `{Engine}.

Lemma check_invalid_character_passes name :
  check_invalid_character name = Return tt.
Proof.
  unfold check_invalid_character. rewrite test_re_invalid_character. reflexivity.
Qed.

Lemma check_has_lower_after_start name :
  check_starts_lower name = Return tt → check_has_lower name = Return tt.
Proof.
  unfold check_starts_lower, check_has_lower.
  rewrite test_re_starts_lower, test_re_lower.
  destruct (Spec.starts_lower name) eqn:Hs; [|discriminate].
  rewrite (starts_lower_has_lower _ Hs). reflexivity.
Qed.

Lemma strict_checks_without_fourth name :
  strict_checks name = WithoutFourthCheck.strict_checks name.
Proof.
  unfold strict_checks, WithoutFourthCheck.strict_checks.
  destruct (check_no_upper name) as [[]|e]; simpl; auto.
  destruct (check_starts_lower name) as [[]|e] eqn:Hs; simpl; auto.
  rewrite (check_has_lower_after_start _ Hs).
  destruct (check_ends_lower name) as [[]|e]; reflexivity.
Qed.

Lemma truthy_string s : s ≠ EmptyString → truthy (VStr s) = true.
Proof. intros Hs. simpl. apply negb_true_iff, String.eqb_neq; auto. Qed.

(** The non-strict part on a string that passes it. *)
Lemma Json_name_passes s strictNames :
  s ≠ EmptyString → (String.length s < 50)%nat → test re_structure s = true →
  Json.findPackageNameErrors (VStr s) strictNames
  = ((if strictNames then strict_checks s else Return tt);; Return []).
Proof.
  intros Hs Hlen Hre. unfold Json.findPackageNameErrors.
  rewrite (truthy_string _ Hs); simpl negb; cbv iota.
  replace (50 <=? Z.of_nat (String.length s)) with false
    by (symmetry; apply Z.leb_gt; lia).
  rewrite check_invalid_character_passes.
  unfold check_structure. rewrite Hre. reflexivity.
Qed.

Lemma Part000_name_passes s strictNames :
  s ≠ EmptyString → (String.length s < 50)%nat → test re_structure s = true →
  Part000.validatePackageName (VStr s) strictNames
  = (if strictNames then strict_checks s else Return tt).
Proof.
  intros Hs Hlen Hre. unfold Part000.validatePackageName.
  rewrite (truthy_string _ Hs); simpl negb; cbv iota.
  simpl get_prop. unfold js_ge; simpl.
  replace (50 <=? Z.of_nat (String.length s)) with false
    by (symmetry; apply Z.leb_gt; lia).
  simpl. rewrite check_invalid_character_passes.
  unfold check_structure. rewrite Hre. reflexivity.
Qed.

(** C5 (amended). A string with an upper case letter that passes the checks
    made in both modes (not empty, shorter than 50 characters, matching the
    structural pattern) is turned away in strict mode with the message
    about upper case letters, and is accepted in non-strict mode, where
    [validatePackageName] returns [true] in [lib/json.js] and nothing in
    the earlier revision; neither returns the name. *)
Theorem upper_case_name_strict_and_not s :
  s ≠ EmptyString → (String.length s < 50)%nat → test re_structure s = true →
  Spec.has_upper s = true →
  Json.validatePackageName (VStr s) true
    = Throw (createError "The name contains upper case letters" "EINVALID")
  ∧ Part000.validatePackageName (VStr s) true
    = Throw (createError "The name contains upper case letters" "EINVALID")
  ∧ Json.validatePackageName (VStr s) false = Return (VBool true)
  ∧ Part000.validatePackageName (VStr s) false = Return tt.
Proof.
  intros Hs Hlen Hre Hup.
  assert (Hstrict : strict_checks s
                    = Throw (createError "The name contains upper case letters" "EINVALID")).
  { unfold strict_checks, check_no_upper. rewrite test_re_upper, Hup. reflexivity. }
  unfold Json.validatePackageName.
  rewrite !Json_name_passes, !Part000_name_passes by auto.
  rewrite Hstrict. repeat split; reflexivity.
Qed.

(** C10. The fourth strict check cannot fail where it stands: on every name
    for which the three checks before it pass it passes too, and the two
    validators behave on every input as they do with the check removed. *)
Theorem fourth_strict_check_never_fails :
  (∀ name, WithoutFourthCheck.strict_checks name = Return tt →
           check_has_lower name = Return tt)
  ∧ (∀ name strictNames,
       Json.findPackageNameErrors name strictNames
       = WithoutFourthCheck.findPackageNameErrors name strictNames)
  ∧ (∀ name strictNames,
       Part000.validatePackageName name strictNames
       = WithoutFourthCheck.validatePackageName name strictNames).
Proof.
  split; [|split].
  - intros name. unfold WithoutFourthCheck.strict_checks.
    destruct (check_no_upper name) as [[]|e]; simpl; [|discriminate].
    destruct (check_starts_lower name) as [[]|e] eqn:Hs; simpl; [|discriminate].
    intros _. apply check_has_lower_after_start; auto.
  - intros name strictNames.
    unfold Json.findPackageNameErrors, WithoutFourthCheck.findPackageNameErrors.
    destruct (negb (truthy name)); auto.
    destruct name; auto. rewrite strict_checks_without_fourth. reflexivity.
  - intros name strictNames.
    unfold Part000.validatePackageName, WithoutFourthCheck.validatePackageName.
    destruct (negb (truthy name)); auto.
    destruct (get_prop name "length") as [len|e]; simpl; auto.
    destruct (js_ge len 50) as [too_long|e]; simpl; auto.
    destruct (throw_if too_long msg_name_too_long) as [[]|e]; simpl; auto.
    destruct (ToString name) as [s|e]; simpl; auto.
    destruct (check_invalid_character s) as [[]|e]; simpl; auto.
    destruct (check_structure s) as [[]|e]; simpl; auto.
    destruct strictNames; auto. apply strict_checks_without_fourth.
Qed.

End NameValidator.

(** ** Results of the monad *)

Lemma bind_Return {A B : Type} (m : result A) (f : A → result B) b :
  m ≫= f = Return b → ∃ a, m = Return a ∧ f a = Return b.
Proof. destruct m as [a|e]; simpl; [eauto | discriminate]. Qed.

Lemma throw_if_Return cond msg u : throw_if cond msg = Return u → cond = false.
Proof. destruct cond; [discriminate | auto]. Qed.

Lemma throw_if_code cond msg e :
  throw_if cond msg = Throw e → code e = Some "EINVALID".
Proof. destruct cond; [|discriminate]. intros [= <-]. reflexivity. Qed.

Lemma forEach_cons {A S : Type} (body : S → A → result S) x l acc :
  forEach body (x :: l) acc = body acc x ≫= forEach body l.
Proof. reflexivity. Qed.

Lemma forEach_Return {A S : Type} (body : S → A → result S) l acc r :
  forEach body l acc = Return r →
  ∀ x, In x l → ∃ a a', body a x = Return a'.
Proof.
  revert acc. induction l as [|y l IH]; intros acc Hr x Hin; [destruct Hin|].
  simpl in Hr. apply bind_Return in Hr as (acc' & Hy & Hr).
  destruct Hin as [<-|Hin]; eauto.
Qed.

Ltac inv_bind H :=
  let a := fresh "a" in
  let Ha := fresh "H" a in
  apply bind_Return in H as (a & Ha & H).

Tactic Notation "inv_bind_as" hyp(H) ident(a) ident(Ha) :=
  apply bind_Return in H as (a & Ha & H).

(** ** Names that strict mode lets through *)

Section StrictNames.
Import RegExp Rules RulesFacts.
Context `{Engine} `{Platform} `{Classifiers}.

Lemma strict_checks_Return s u :
  strict_checks s = Return u →
  Spec.has_upper s = false ∧ Spec.starts_lower s = true ∧ Spec.ends_lower s = true.
Proof.
  unfold strict_checks. intros Hr.
  inv_bind Hr. inv_bind Hr. inv_bind Hr.
  apply throw_if_Return in Ha, Ha0, Ha1.
  rewrite test_re_upper in Ha.
  rewrite negb_false_iff, test_re_starts_lower in Ha0.
  rewrite negb_false_iff, test_re_ends_lower in Ha1. auto.
Qed.

Lemma strict_casing_intro s :
  s ≠ EmptyString → (50 <=? Z.of_nat (String.length s)) = false →
  check_structure s = Return tt → strict_checks s = Return tt →
  Spec.strict_casing s.
Proof.
  intros Hne Hlen Hre Hstrict.
  apply Z.leb_gt in Hlen. apply throw_if_Return, negb_false_iff in Hre.
  apply strict_checks_Return in Hstrict as (Hu & Hs & He).
  repeat split; auto; [lia|].
  intros Hc. unfold Spec.strict_name.
  rewrite (test_structure_charset _ Hc Hre), Hu, Hs, He. reflexivity.
Qed.

Lemma Json_strict_name s errors :
  Json.findPackageNameErrors (VStr s) true = Return errors → Spec.strict_casing s.
Proof.
  unfold Json.findPackageNameErrors.
  destruct (truthy (VStr s)) eqn:Ht; simpl negb; cbv iota; [|discriminate].
  intros Hr. inv_bind Hr. inv_bind Hr. inv_bind Hr. inv_bind Hr.
  apply throw_if_Return in Ha.
  simpl in Ht. apply negb_true_iff, String.eqb_neq in Ht.
  destruct a, a1, a2. apply strict_casing_intro; auto.
Qed.

Lemma Part000_strict_name s u :
  Part000.validatePackageName (VStr s) true = Return u → Spec.strict_casing s.
Proof.
  unfold Part000.validatePackageName.
  destruct (truthy (VStr s)) eqn:Ht; simpl negb; cbv iota; [|discriminate].
  simpl get_prop. unfold js_ge; simpl.
  intros Hr. inv_bind Hr. inv_bind Hr. inv_bind Hr.
  apply throw_if_Return in Ha.
  simpl in Ht. apply negb_true_iff, String.eqb_neq in Ht.
  destruct a, a1, u. apply strict_casing_intro; auto.
Qed.

Lemma Json_dependency_keys deps errors k :
  Json.findDependencyErrors deps true = Return errors →
  In k (map fst (own_props deps)) → Spec.strict_casing k.
Proof.
  unfold Json.findDependencyErrors. intros Hr Hin.
  destruct (is_object deps) eqn:Ho.
  - destruct (forEach_Return _ _ _ _ Hr k Hin) as (a & a' & Hb).
    unfold Json.dependency_entry in Hb.
    inv_bind Hb. inv_bind Hb. eapply Json_strict_name; eauto.
  - destruct deps; try discriminate; destruct Hin.
Qed.

Lemma Part000_dependency_keys deps u k :
  Part000.validateDependencies deps true = Return u →
  In k (map fst (own_props deps)) → Spec.strict_casing k.
Proof.
  unfold Part000.validateDependencies. intros Hr Hin.
  destruct (is_object deps) eqn:Ho.
  - destruct (forEach_Return _ _ _ _ Hr k Hin) as (a & a' & Hb).
    unfold Part000.dependency_entry in Hb.
    inv_bind Hb. inv_bind Hb. eapply Part000_strict_name; eauto.
  - destruct deps; try discriminate; destruct Hin.
Qed.

End StrictNames.

(** ** Manifests that the validators accept *)

Section AcceptedManifests.
Import RegExp Rules RulesFacts.
Context `{Engine} `{Platform} `{Classifiers}.

(** In [lib/json.js] [validate] is [findErrors] followed by a throw of the
    first error found. *)
Lemma Json_validate_findErrors json options :
  Json.validate json options
  = match Json.findErrors json options with
    | Throw e => Throw e
    | Return [] => Return json
    | Return (e :: _) => Throw e
    end.
Proof.
  unfold Json.validate.
  destruct (Json.findErrors json options) as [[|e errors]|e]; reflexivity.
Qed.

Lemma Json_findErrors_names json options errors :
  default true (opt_strictNames options) = true →
  Json.findErrors json options = Return errors →
  (∀ s, get_prop json "name" = Return (VStr s) → s ≠ EmptyString →
        Spec.strict_casing s)
  ∧ (∀ field deps k,
       field = "dependencies" ∨ field = "devDependencies" →
       get_prop json field = Return deps →
       In k (map fst (own_props deps)) → Spec.strict_casing k).
Proof.
  intros Hstrict Hr. unfold Json.findErrors in Hr. rewrite Hstrict in Hr.
  inv_bind_as Hr errors1 Hstep1.
  inv_bind_as Hr name Hname.
  inv_bind_as Hr errors2 Hstep2.
  inv_bind_as Hr description Hdescription.
  inv_bind_as Hr too_long Hlong.
  inv_bind_as Hr main Hmain.
  inv_bind_as Hr errors3 Hstep3.
  inv_bind_as Hr dependencies Hdependencies.
  inv_bind_as Hr found1 Hfound1.
  inv_bind_as Hr devDependencies HdevDependencies.
  inv_bind_as Hr found2 Hfound2.
  split.
  - intros s Hs Hne. rewrite Hs in Hname. injection Hname as <-.
    rewrite (truthy_string _ Hne) in Hstep2. inv_bind_as Hstep2 found Hfound.
    eapply Json_strict_name; eauto.
  - intros field deps k [-> | ->] Hdeps Hin.
    + rewrite Hdeps in Hdependencies. injection Hdependencies as <-.
      exact (Json_dependency_keys _ _ _ Hfound1 Hin).
    + rewrite Hdeps in HdevDependencies. injection HdevDependencies as <-.
      exact (Json_dependency_keys _ _ _ Hfound2 Hin).
Qed.

Lemma Part000_validate_names json options r :
  default true (opt_strictNames options) = true →
  Part000.validate json options = Return r →
  (∀ s, get_prop json "name" = Return (VStr s) → s ≠ EmptyString →
        Spec.strict_casing s)
  ∧ (∀ field deps k,
       field = "dependencies" ∨ field = "devDependencies" →
       get_prop json field = Return deps →
       In k (map fst (own_props deps)) → Spec.strict_casing k).
Proof.
  intros Hstrict Hr. unfold Part000.validate in Hr. rewrite Hstrict in Hr.
  inv_bind_as Hr u1 Hstep1.
  inv_bind_as Hr name Hname.
  inv_bind_as Hr u2 Hstep2.
  inv_bind_as Hr description Hdescription.
  inv_bind_as Hr too_long Hlong.
  inv_bind_as Hr u3 Hstep3.
  inv_bind_as Hr main Hmain.
  inv_bind_as Hr u4 Hstep4.
  inv_bind_as Hr dependencies Hdependencies.
  inv_bind_as Hr u5 Hchecked1.
  inv_bind_as Hr devDependencies HdevDependencies.
  inv_bind_as Hr u6 Hchecked2.
  split.
  - intros s Hs Hne. rewrite Hs in Hname. injection Hname as <-.
    rewrite (truthy_string _ Hne) in Hstep2.
    eapply Part000_strict_name; eauto.
  - intros field deps k [-> | ->] Hdeps Hin.
    + rewrite Hdeps in Hdependencies. injection Hdependencies as <-.
      exact (Part000_dependency_keys _ _ _ Hchecked1 Hin).
    + rewrite Hdeps in HdevDependencies. injection HdevDependencies as <-.
      exact (Part000_dependency_keys _ _ _ Hchecked2 Hin).
Qed.

(** Errors are only ever added to the list. *)
Lemma main_entry_grows errors groups filename errors' groups' :
  Json.main_entry (errors, groups) filename = Return (errors', groups') →
  ∃ more, errors' = errors ++ more.
Proof.
  unfold Json.main_entry. intros Hr. inv_bind Hr. inv_bind Hr.
  injection Hr as <- _.
  repeat match goal with
         | |- context [if ?b then _ else _] => destruct b
         end;
    rewrite <- ?app_assoc; eauto using app_nil_r.
Qed.

Lemma main_entries_grow items errors groups errors' groups' :
  forEach Json.main_entry items (errors, groups) = Return (errors', groups') →
  ∃ more, errors' = errors ++ more.
Proof.
  revert errors groups. induction items as [|filename items IH];
    intros errors groups Hr.
  - injection Hr as <- _. exists []. symmetry. apply app_nil_r.
  - rewrite forEach_cons in Hr. inv_bind Hr. destruct a as [errors1 groups1].
    apply main_entry_grows in Ha as (more1 & ->).
    apply IH in Hr as (more & ->). rewrite <- app_assoc. eauto.
Qed.

Lemma group_entries_grow groups errors :
  ∃ more, fold_left Json.group_entry groups errors = errors ++ more.
Proof.
  revert errors. induction groups as [|[ext files] groups IH]; intros errors; simpl.
  - exists []. symmetry. apply app_nil_r.
  - destruct (1 <? Z.of_nat (length files)); auto.
    edestruct IH as (more & ->). rewrite <- app_assoc. eauto.
Qed.

(** With [enforceNameExists] left on, [lib/json.js] accepts no manifest
    whose name is not a non-empty string. *)
Lemma Json_accepted_manifest_is_named json options r :
  default true (opt_enforceNameExists options) = true →
  Json.validate json options = Return r →
  ∃ s, get_prop json "name" = Return (VStr s) ∧ s ≠ EmptyString.
Proof.
  intros Henforce Hr. unfold Json.validate in Hr.
  inv_bind_as Hr errors Herrors.
  destruct errors as [|e errors]; [clear Hr|discriminate].
  unfold Json.findErrors in Herrors. rewrite Henforce in Herrors.
  inv_bind_as Herrors errors1 Hstep1.
  inv_bind_as Herrors name Hname.
  inv_bind_as Herrors errors2 Hstep2.
  inv_bind_as Herrors description Hdescription.
  inv_bind_as Herrors too_long Hlong.
  inv_bind_as Herrors main Hmain.
  inv_bind_as Herrors errors3 Hstep3.
  inv_bind_as Herrors deps Hdeps.
  inv_bind_as Herrors found1 Hfound1.
  inv_bind_as Herrors dev Hdev.
  inv_bind_as Herrors found2 Hfound2.
  injection Herrors as ->.
  assert (Hgrow2 : ∃ more, errors2 = errors1 ++ more).
  { destruct (truthy name).
    - inv_bind_as Hstep2 found Hfound. injection Hstep2 as <-. eauto.
    - injection Hstep2 as <-. exists []. symmetry. apply app_nil_r. }
  assert (Hgrow3 : ∃ more, [] = errors2 ++ more).
  { destruct (is_defined main).
    - destruct (if is_string main then VArr [main] else main); try discriminate.
      inv_bind_as Hstep3 acc Hacc. destruct acc as [errors' groups'].
      injection Hstep3 as Heq.
      destruct (group_entries_grow groups' errors') as (more2 & Hmore2).
      rewrite Hmore2 in Heq.
      apply main_entries_grow in Hacc as (more1 & ->). simpl in Heq.
      destruct too_long; rewrite <- ?app_assoc in Heq; eauto.
    - injection Hstep3 as Heq. symmetry in Heq.
      destruct too_long; [eauto|]. exists []. rewrite app_nil_r. auto. }
  destruct Hgrow2 as (more2 & ->). destruct Hgrow3 as (more3 & Hnil).
  symmetry in Hnil. apply app_eq_nil in Hnil as [Hnil _].
  apply app_eq_nil in Hnil as [-> _].
  inv_bind_as Hstep1 name' Hname'. rewrite Hname in Hname'. injection Hname' as <-.
  inv_bind_as Hstep1 named Hnamed.
  destruct named; [|discriminate]. clear Hstep1.
  unfold has_length in Hnamed. destruct (truthy name) eqn:Ht; [|discriminate].
  inv_bind_as Hstep2 found Hfound. unfold Json.findPackageNameErrors in Hfound.
  rewrite Ht in Hfound. simpl in Hfound.
  destruct name; try discriminate. exists s. split; auto.
  simpl in Ht. apply negb_true_iff, String.eqb_neq in Ht. auto.
Qed.

(** C6 (amended). When [validate] accepts a manifest in strict mode, a name
    that is a non-empty string, and every key of [dependencies] and of
    [devDependencies], is shorter than 50 characters, has no upper case
    letter, has a lower case letter first and last, and is a word of the
    strict grammar if it is made of the characters of [[A-Za-z0-9.-]] only.
    This holds of [validate] in both revisions. *)
Theorem accepted_manifest_has_strict_names json options r :
  default true (opt_strictNames options) = true →
  Json.validate json options = Return r ∨ Part000.validate json options = Return r →
  (∀ s, get_prop json "name" = Return (VStr s) → s ≠ EmptyString →
        Spec.strict_casing s)
  ∧ (∀ field deps k,
       field = "dependencies" ∨ field = "devDependencies" →
       get_prop json field = Return deps →
       In k (map fst (own_props deps)) → Spec.strict_casing k).
Proof.
  intros Hstrict [Hr|Hr].
  - unfold Json.validate in Hr. inv_bind Hr.
    eapply Json_findErrors_names; eauto.
  - eapply Part000_validate_names; eauto.
Qed.

End AcceptedManifests.

(** ** Resources that climb out of the package *)

Section Traversal.
Import RegExp Rules RegExpFacts RulesFacts.
Context `{Engine} `{Platform} `{Classifiers}.

Lemma in_class_lit s ch :
  in_class false [(c s, c s)] ch = true ↔ ch = c s.
Proof.
  rewrite in_class_one, andb_true_iff, !Nat.leb_le. split.
  - intros [Hlo Hhi]. rewrite <- (ascii_nat_embedding ch), <- (ascii_nat_embedding (c s)).
    f_equal. lia.
  - intros ->. lia.
Qed.

Lemma test_re_traversal s : test re_traversal s = true ↔ Spec.contains ".." s.
Proof.
  unfold re_traversal, Spec.contains. rewrite test_unanchored. split.
  - intros (pre & mid & post & Heq & Hm).
    apply Matches_Cat in Hm as (s1 & s2 & -> & Hm1 & Hm2).
    apply Matches_Chars in Hm1 as (c1 & -> & Hc1), Hm2 as (c2 & -> & Hc2).
    apply in_class_lit in Hc1, Hc2. subst. exists pre, post. auto.
  - intros (pre & post & Heq). exists pre, (list_ascii_of_string ".."), post.
    split; auto. apply Matches_Cat. exists [c "."], [c "."].
    repeat split; constructor; reflexivity.
Qed.

Lemma strict_checks_shape name :
  strict_checks name = Return tt
  ∨ ∃ e, strict_checks name = Throw e ∧ Spec.is_EINVALID e.
Proof.
  unfold strict_checks, check_no_upper, check_starts_lower, check_ends_lower,
    check_has_lower, throw_if, Spec.is_EINVALID.
  destruct (test re_upper name); simpl; eauto.
  destruct (test re_starts_lower name); simpl; eauto.
  destruct (test re_ends_lower name); simpl; eauto.
  destruct (test re_lower name); simpl; eauto.
Qed.

(** [findPackageNameErrors] never adds to its list: it returns it empty or
    throws. *)
Lemma Json_name_errors_shape name strictNames :
  Json.findPackageNameErrors name strictNames = Return []
  ∨ ∃ e, Json.findPackageNameErrors name strictNames = Throw e ∧ Spec.is_EINVALID e.
Proof.
  unfold Json.findPackageNameErrors, check_invalid_character, check_structure,
    throw_if, Spec.is_EINVALID.
  destruct (negb (truthy name)); eauto.
  destruct name; eauto.
  destruct (50 <=? Z.of_nat (String.length s)); simpl; eauto.
  destruct (negb (test re_invalid_character s)); simpl; eauto.
  destruct (negb (test re_structure s)); simpl; eauto.
  destruct strictNames; simpl; auto.
  destruct (strict_checks_shape s) as [-> | (e & -> & He)]; simpl; eauto.
Qed.

Lemma Part000_name_shape s strictNames :
  Part000.validatePackageName (VStr s) strictNames = Return tt
  ∨ ∃ e, Part000.validatePackageName (VStr s) strictNames = Throw e ∧ Spec.is_EINVALID e.
Proof.
  unfold Part000.validatePackageName, check_invalid_character, check_structure,
    throw_if, Spec.is_EINVALID.
  destruct (negb (truthy (VStr s))); eauto.
  simpl get_prop. unfold js_ge; simpl.
  destruct (50 <=? Z.of_nat (String.length s)); simpl; eauto.
  destruct (negb (test re_invalid_character s)); simpl; eauto.
  destruct (negb (test re_structure s)); simpl; eauto.
  destruct strictNames; simpl; auto.
  apply strict_checks_shape.
Qed.

Lemma Json_dependency_entry_string deps strictNames errors name s :
  get_prop deps name = Return (VStr s) →
  Json.dependency_entry deps strictNames errors name
  = (found ← Json.findPackageNameErrors (VStr name) strictNames;
     Return (if test re_traversal s
             then (errors ++ found) ++ [createError msg_traversal "EINVALID"]
             else errors ++ found)).
Proof.
  intros Hs. unfold Json.dependency_entry. rewrite Hs. simpl.
  destruct (Json.findPackageNameErrors (VStr name) strictNames); reflexivity.
Qed.

Lemma Part000_dependency_entry_string deps strictNames name s :
  get_prop deps name = Return (VStr s) →
  Part000.dependency_entry deps strictNames tt name
  = (Part000.validatePackageName (VStr name) strictNames;;
     throw_if (test re_traversal s) msg_traversal).
Proof.
  intros Hs. unfold Part000.dependency_entry. rewrite Hs. simpl.
  destruct (Part000.validatePackageName (VStr name) strictNames); reflexivity.
Qed.

Lemma Json_dependencies_loop deps strictNames names errors :
  (∀ name, In name names → ∃ s, get_prop deps name = Return (VStr s)) →
  Forall Spec.is_EINVALID errors →
  (∃ e, forEach (Json.dependency_entry deps strictNames) names errors = Throw e
        ∧ Spec.is_EINVALID e)
  ∨ (∃ errors',
       forEach (Json.dependency_entry deps strictNames) names errors = Return errors'
       ∧ Forall Spec.is_EINVALID errors'
       ∧ (errors ≠ [] → errors' ≠ [])
       ∧ ((∃ name s, In name names ∧ get_prop deps name = Return (VStr s)
                     ∧ Spec.contains ".." s) → errors' ≠ [])).
Proof.
  revert errors. induction names as [|name names IH]; intros errors Hstr Hinv.
  - right. exists errors. repeat split; auto. intros (? & ? & [] & _).
  - destruct (Hstr name) as (s & Hs); [left; auto|].
    rewrite forEach_cons, (Json_dependency_entry_string _ _ _ _ _ Hs).
    destruct (Json_name_errors_shape (VStr name) strictNames)
      as [-> | (e & -> & He)]; simpl; [|eauto].
    rewrite app_nil_r.
    set (errors1 := if test re_traversal s
                    then errors ++ [createError msg_traversal "EINVALID"]
                    else errors).
    assert (Hinv1 : Forall Spec.is_EINVALID errors1).
    { unfold errors1. destruct (test re_traversal s); auto.
      apply Forall_app. split; auto. constructor; [reflexivity | constructor]. }
    assert (Hgrow : errors ≠ [] → errors1 ≠ []).
    { unfold errors1. destruct (test re_traversal s); auto.
      intros _ Heq. apply app_eq_nil in Heq as [_ Heq]. discriminate. }
    destruct (IH errors1) as [(e & -> & He) | (errors' & -> & Hinv' & Hne & Hfound)];
      auto; [intros; apply Hstr; right; auto | eauto |].
    right. exists errors'. repeat split; auto.
    intros (name' & s' & [<- | Hin] & Hs' & Hsub).
    + apply Hne. unfold errors1. rewrite Hs in Hs'. injection Hs' as <-.
      apply test_re_traversal in Hsub. rewrite Hsub.
      intros Heq. apply app_eq_nil in Heq as [_ Heq]. discriminate.
    + apply Hfound. eauto.
Qed.

(** The Dependency Validator of [lib/json.js] fails with EINVALID on a
    mapping one of whose resources contains [..], in both modes. *)
Lemma Json_validateDependencies_traversal deps strictNames :
  is_object deps = true → Spec.traversing deps (map fst (own_props deps)) →
  ∃ e, Json.validateDependencies deps strictNames = Throw e ∧ Spec.is_EINVALID e.
Proof.
  intros Ho [Hstr Hsub].
  unfold Json.validateDependencies, Json.findDependencyErrors. rewrite Ho.
  destruct (Json_dependencies_loop deps strictNames _ [] Hstr)
    as [(e & -> & He) | (errors' & -> & Hinv' & _ & Hfound)]; simpl; eauto.
  destruct errors' as [|e errors']; [destruct (Hfound Hsub); auto|].
  simpl. exists e. split; auto. inversion Hinv'; auto.
Qed.

Lemma Part000_dependencies_loop deps strictNames names :
  Spec.traversing deps names →
  ∃ e, forEach (Part000.dependency_entry deps strictNames) names tt = Throw e
       ∧ Spec.is_EINVALID e.
Proof.
  intros [Hstr (name' & s' & Hin & Hs' & Hsub)].
  induction names as [|name names IH]; [destruct Hin|].
  destruct (Hstr name) as (s & Hs); [left; auto|].
  rewrite forEach_cons, (Part000_dependency_entry_string _ _ _ _ Hs).
  destruct (Part000_name_shape name strictNames) as [-> | (e & -> & He)];
    simpl; [|eauto].
  destruct (test re_traversal s) eqn:Ht; simpl.
  - eexists. split; reflexivity.
  - apply IH; [intros; apply Hstr; right; auto|].
    destruct Hin as [<- | Hin]; auto.
    rewrite Hs in Hs'. injection Hs' as <-.
    apply test_re_traversal in Hsub. congruence.
Qed.

(** So does the Dependency Validator of the earlier revision. *)
Lemma Part000_validateDependencies_traversal deps strictNames :
  is_object deps = true → Spec.traversing deps (map fst (own_props deps)) →
  ∃ e, Part000.validateDependencies deps strictNames = Throw e ∧ Spec.is_EINVALID e.
Proof.
  intros Ho Ht. unfold Part000.validateDependencies. rewrite Ho.
  apply Part000_dependencies_loop; auto.
Qed.

(** The earlier revision's [validate] passes the failure on: it accepts no
    manifest whose [dependencies] or [devDependencies] is such a mapping. *)
Lemma Part000_validate_traversal json options field deps :
  field = "dependencies" ∨ field = "devDependencies" →
  get_prop json field = Return deps →
  is_object deps = true → Spec.traversing deps (map fst (own_props deps)) →
  ∃ e, Part000.validate json options = Throw e.
Proof.
  intros Hfield Hdeps Ho Ht.
  destruct (Part000.validate json options) as [r|e] eqn:Hr; [|eauto].
  exfalso. unfold Part000.validate in Hr.
  inv_bind Hr. inv_bind Hr. inv_bind Hr. inv_bind Hr. inv_bind Hr.
  inv_bind Hr. inv_bind Hr. inv_bind Hr. inv_bind Hr. inv_bind Hr.
  inv_bind Hr. inv_bind Hr.
  destruct
    (Part000_validateDependencies_traversal deps
       (default true (opt_strictNames options)) Ho Ht) as (e & He & _).
  destruct Hfield as [-> | ->]; congruence.
Qed.

End Traversal.

(** ** The locator *)

Section Locator.
Context `{Engine} `{Platform} `{Classifiers}.

(** [find] answers with the first acceptable candidate of the list it was
    given; when there is none, the error lists the default candidates,
    whatever the list was. *)
Lemma find_in_first_acceptable folder files :
  Json.find_in folder files
  = match List.find (Spec.acceptable folder) files with
    | Some name => Return (path_resolve (path_join folder name))
    | None =>
        Throw (createError
                 ("None of bower.json, component.json, .bower.json were found in "
                  +:+ folder) "ENOENT")
    end.
Proof.
  induction files as [|first rest IH]; [reflexivity|].
  simpl. unfold Spec.acceptable at 1. rewrite IH.
  destruct (fs_exists (path_resolve (path_join folder first))); simpl; auto.
  destruct (String.eqb first "component.json"); simpl; auto.
  destruct (isComponent (path_resolve (path_join folder first))); reflexivity.
Qed.

Lemma find_default folder :
  Json.find folder None
  = match List.find (Spec.acceptable folder)
            ["bower.json"; "component.json"; ".bower.json"] with
    | Some name => Return (path_resolve (path_join folder name))
    | None =>
        Throw (createError
                 ("None of bower.json, component.json, .bower.json were found in "
                  +:+ folder) "ENOENT")
    end.
Proof. apply find_in_first_acceptable. Qed.
End Locator.

(** ** The normaliser *)

Section Normalizer.

Lemma lookup_assign_prop_eq k v props :
  lookup_prop k (assign_prop k v props) = Some v.
Proof.
  induction props as [|[k' v'] props IH]; simpl.
  - rewrite String.eqb_refl. reflexivity.
  - destruct (String.eqb k k') eqn:Hk; simpl; rewrite Hk; auto.
Qed.

Lemma lookup_assign_prop_ne k k' v props :
  k' ≠ k → lookup_prop k' (assign_prop k v props) = lookup_prop k' props.
Proof.
  intros Hne. induction props as [|[k0 v0] props IH]; simpl.
  - apply String.eqb_neq in Hne. rewrite Hne. reflexivity.
  - destruct (String.eqb k k0) eqn:Hk; simpl.
    + apply String.eqb_eq in Hk as <-.
      apply String.eqb_neq in Hne. rewrite Hne. reflexivity.
    + rewrite IH. reflexivity.
Qed.

Lemma deref_insert h l v : deref (<[l := v]> h) l = v.
Proof. unfold deref. rewrite lookup_insert_eq. reflexivity. Qed.

(** C8. [normalize] on a manifest whose [main] is the string [f] returns
    the object it was given, and that object now has [[f]] for [main] and
    its other properties as before; and [normalize] applied to its own
    result gives what one application gives, on every manifest. *)
Theorem normalize_wraps_main_and_is_idempotent :
  (∀ json h props f,
     h !! json = Some (VObj props) →
     lookup_prop "main" props = Some (VStr f) →
     ∃ props',
       Json.normalize json h = (Return json, <[json := VObj props']> h)
       ∧ get_prop (VObj props') "main" = Return (VArr [VStr f])
       ∧ ∀ k, k ≠ "main" → lookup_prop k props' = lookup_prop k props)
  ∧ (∀ json h, Json.twice Json.normalize json h = Json.normalize json h).
Proof.
  split.
  - intros json h props f Hjson Hmain.
    exists (assign_prop "main" (VArr [VStr f]) props).
    unfold Json.normalize, deref. rewrite Hjson. simpl. rewrite Hmain. simpl.
    repeat split.
    + rewrite lookup_assign_prop_eq. reflexivity.
    + intros k Hk. apply lookup_assign_prop_ne; auto.
  - intros json h. unfold Json.twice.
    destruct (Json.normalize json h) as [[json'|e] h'] eqn:Hn; [|reflexivity].
    unfold Json.normalize in Hn.
    destruct (get_prop (deref h json) "main") as [main|e] eqn:Hmain;
      [|discriminate].
    assert (Hsame : (Return json' : result loc, h') = (Return json, h) →
                    Json.normalize json' h' = (Return json', h')).
    { intros [= -> ->]. unfold Json.normalize. rewrite Hmain.
      destruct (is_string main); [destruct (deref h json)|]; auto. }
    destruct (is_string main) eqn:Hstr; [|auto].
    destruct (deref h json) as [| | | | | |props] eqn:Hd; auto.
    injection Hn as <- <-.
    unfold Json.normalize. rewrite deref_insert. simpl.
    rewrite lookup_assign_prop_eq. reflexivity.
Qed.

End Normalizer.

(** ** The reader *)

Section Reader.
Context `{Engine} `{Platform} `{Classifiers}.

(** C7. Reading a file whose contents are not JSON fails with the parser's
    error, given the code EMALFORMED and the resolved path of the file;
    reading a file whose contents are JSON that [validate] turns away
    fails with the error of [validate], given the resolved path of the
    file. *)
Theorem read_tags_errors_with_resolved_path :
  (∀ fuel path options h contents err,
     fs_stat path = Return false →
     fs_readFile path = Return contents →
     JSON_parse contents = Throw err →
     ∃ e, Json.read (S fuel) path options h = Some (Throw e, h)
          ∧ code e = Some "EMALFORMED"
          ∧ file e = Some (path_resolve path)
          ∧ message e = message err)
  ∧ (∀ fuel path options h contents parsed err,
       fs_stat path = Return false →
       fs_readFile path = Return contents →
       JSON_parse contents = Return parsed →
       default true (opt_validate options) = true →
       Json.validate
         (if default false (opt_clone options) then deepCopy parsed else parsed)
         options = Throw err →
       ∃ e h', Json.read (S fuel) path options h = Some (Throw e, h')
               ∧ file e = Some (path_resolve path)
               ∧ message e = message err ∧ code e = code err).
Proof.
  split.
  - intros fuel path options h contents err Hstat Hread Hparse.
    simpl. rewrite Hstat, Hread, Hparse. eexists. repeat split.
  - intros fuel path options h contents parsed err Hstat Hread Hparse Hv Herr.
    simpl. rewrite Hstat, Hread, Hparse.
    unfold Json.parse. rewrite Hv.
    destruct (default false (opt_clone options)).
    + rewrite !deref_insert, Herr. eexists _, _. repeat split.
    + rewrite deref_insert, Herr. eexists _, _. repeat split.
Qed.

(** On a directory [read] is [find] followed by [read] on what was found. *)
Lemma read_directory fuel path options h :
  fs_stat path = Return true →
  Json.read (S fuel) path options h
  = match Json.find path None with
    | Throw err => Some (Throw err, h)
    | Return found => Json.read fuel found options h
    end.
Proof. intros Hstat. simpl. rewrite Hstat. reflexivity. Qed.

End Reader.

(** ** The validators at work on the sample platform *)

Section Samples.
Import RegExp Rules.
#[local] Existing Instance Sample.engine.
#[local] Existing Instance Sample.platform.
#[local] Existing Instance Sample.classifiers.

(** The third and the fourth strict check throw one and the same error,
    whatever names they fail on. *)
Lemma ends_lower_and_has_lower_throw_alike a b e1 e2 :
  check_ends_lower a = Throw e1 → check_has_lower b = Throw e2 → e1 = e2.
Proof.
  unfold check_ends_lower, check_has_lower, throw_if.
  destruct (negb (test re_ends_lower a)); [|discriminate].
  destruct (negb (test re_lower b)); [|discriminate].
  congruence.
Qed.

(** C1. On a manifest named [Foo], [findErrors] does not return the
    violation in a sequence: it throws it, as [validate] does. *)
Theorem findErrors_throws_the_name_violation :
  let manifest := VObj [("name", VStr "Foo")] in
  let violation := createError "The name contains upper case letters" "EINVALID" in
  Json.findErrors manifest no_options = Throw violation
  ∧ Json.validate manifest no_options = Throw violation
  ∧ Part000.validate manifest no_options = Throw violation.
Proof. repeat split; vm_compute; reflexivity. Qed.

(** C2. The name [a b] has a character outside [[A-Za-z0-9.-]], yet the
    invalid-character check lets it through and the validators turn it
    away as malformed; the name [a_b] has one too and is accepted, even in
    strict mode. *)
Theorem invalid_character_check_lets_a_blank_through :
  let malformed := createError "The name is malformed: a b" "EINVALID" in
  forallb Spec.in_charset (list_ascii_of_string "a b") = false
  ∧ check_invalid_character "a b" = Return tt
  ∧ Json.validatePackageName (VStr "a b") true = Throw malformed
  ∧ Part000.validatePackageName (VStr "a b") true = Throw malformed
  ∧ forallb Spec.in_charset (list_ascii_of_string "a_b") = false
  ∧ Json.validatePackageName (VStr "a_b") true = Return (VBool true)
  ∧ Part000.validatePackageName (VStr "a_b") true = Return tt.
Proof. repeat split; vm_compute; reflexivity. Qed.

(** C3. The Dependency Validator turns away the mapping of [bar] to
    [../baz], and the earlier [validate] turns away a manifest that holds
    it, but [validate] of [lib/json.js] returns that manifest: [findErrors]
    finds nothing. *)
Theorem validate_accepts_a_traversing_dependency :
  let deps := VObj [("bar", VStr "../baz")] in
  let manifest := VObj [("name", VStr "foo"); ("dependencies", deps)] in
  let violation := createError msg_traversal "EINVALID" in
  Json.validateDependencies deps true = Throw violation
  ∧ Json.validateDependencies deps false = Throw violation
  ∧ Json.findErrors manifest no_options = Return []
  ∧ Json.validate manifest no_options = Return manifest
  ∧ Part000.validate manifest no_options = Throw violation.
Proof. repeat split; vm_compute; reflexivity. Qed.

(** C4. Asked for [foo.json] alone in a directory that has none, [find]
    fails with ENOENT and a message that lists the three default names,
    not the name it looked for. *)
Theorem find_names_the_default_candidates :
  Spec.acceptable "/pkg" "foo.json" = false
  ∧ Json.find "/pkg" (Some ["foo.json"])
    = Throw (createError
               "None of bower.json, component.json, .bower.json were found in /pkg"
               "ENOENT").
Proof. split; vm_compute; reflexivity. Qed.

(** C9. On the name [_1], which has no lower case letter, the third and the
    fourth strict check fail with the same message; the validators stop at
    the second. *)
Theorem third_and_fourth_strict_check_share_a_message :
  let ends :=
    createError "The name has to end with a lower case character from a to z"
                "EINVALID" in
  let starts :=
    createError "The name has to start with a lower case character from a to z"
                "EINVALID" in
  check_ends_lower "_1" = Throw ends
  ∧ check_has_lower "_1" = Throw ends
  ∧ Json.validatePackageName (VStr "_1") true = Throw starts
  ∧ Part000.validatePackageName (VStr "_1") true = Throw starts.
Proof. repeat split; vm_compute; reflexivity. Qed.

(** C5, as first stated: the name [Foo] passes in non-strict mode, and what
    [validatePackageName] returns is [true], not the name. *)
Lemma validatePackageName_does_not_return_the_name :
  Spec.has_upper "Foo" = true
  ∧ test re_structure "Foo" = true
  ∧ Json.validatePackageName (VStr "Foo") false = Return (VBool true)
  ∧ Json.validatePackageName (VStr "Foo") false ≠ Return (VStr "Foo")
  ∧ Part000.validatePackageName (VStr "Foo") false = Return tt.
Proof. repeat split; try (vm_compute; reflexivity). vm_compute. discriminate. Qed.

(** C6, as first stated: with [enforceNameExists] off, a manifest whose
    name is the empty string is accepted in strict mode, and the empty
    string is not a word of the strict grammar. *)
Lemma empty_name_is_accepted_in_strict_mode :
  let manifest := VObj [("name", VStr EmptyString)] in
  let options :=
    {| opt_normalize := None; opt_validate := None; opt_clone := None;
       opt_enforceNameExists := Some false; opt_strictNames := Some true |} in
  Json.validate manifest options = Return manifest
  ∧ Part000.validate manifest options = Return manifest
  ∧ get_prop manifest "name" = Return (VStr EmptyString)
  ∧ Spec.strict_name EmptyString = false.
Proof. repeat split; vm_compute; reflexivity. Qed.

(** What the [A-z] ranges let through: the name [a_b] is accepted in strict
    mode although it is not a word of the strict grammar. *)
Lemma underscore_name_is_accepted_in_strict_mode :
  let manifest := VObj [("name", VStr "a_b")] in
  Json.validate manifest no_options = Return manifest
  ∧ Part000.validate manifest no_options = Return manifest
  ∧ Spec.strict_name "a_b" = false.
Proof. repeat split; vm_compute; reflexivity. Qed.

(** The name [Foo] in both modes. *)
Lemma upper_case_name_strict_and_not_witness :
  Json.validatePackageName (VStr "Foo") true
    = Throw (createError "The name contains upper case letters" "EINVALID")
  ∧ Part000.validatePackageName (VStr "Foo") true
    = Throw (createError "The name contains upper case letters" "EINVALID")
  ∧ Json.validatePackageName (VStr "Foo") false = Return (VBool true)
  ∧ Part000.validatePackageName (VStr "Foo") false = Return tt.
Proof.
  apply (upper_case_name_strict_and_not "Foo").
  - discriminate.
  - simpl. lia.
  - vm_compute. reflexivity.
  - reflexivity.
Defined.

(** The name [abc] passes the first three strict checks, hence the fourth. *)
Lemma fourth_strict_check_never_fails_witness :
  check_has_lower "abc" = Return tt.
Proof.
  apply (proj1 fourth_strict_check_never_fails "abc").
  vm_compute. reflexivity.
Defined.

(** The manifest of [foo], which depends on [bar], is accepted. *)
Lemma accepted_manifest_has_strict_names_witness :
  Spec.strict_casing "foo" ∧ Spec.strict_casing "bar".
Proof.
  pose (manifest :=
          VObj [("name", VStr "foo");
                ("dependencies", VObj [("bar", VStr "1.0.0")])]).
  assert (Hstrict : default true (opt_strictNames no_options) = true)
    by reflexivity.
  assert (Haccepted : Json.validate manifest no_options = Return manifest
                      ∨ Part000.validate manifest no_options = Return manifest)
    by (left; vm_compute; reflexivity).
  destruct (accepted_manifest_has_strict_names manifest no_options manifest
              Hstrict Haccepted) as [Hname Hkeys].
  split.
  - apply Hname; [reflexivity | discriminate].
  - apply (Hkeys "dependencies" (VObj [("bar", VStr "1.0.0")]));
      [left; reflexivity | reflexivity | left; reflexivity].
Defined.

(** [normalize] on the manifest of [foo] with [a.js] for [main]. *)
Lemma normalize_wraps_main_and_is_idempotent_witness :
  ∃ props',
    Json.normalize 0%nat {[ 0%nat := VObj [("name", VStr "foo"); ("main", VStr "a.js")] ]}
    = (Return 0%nat,
       <[0%nat := VObj props']>
         {[ 0%nat := VObj [("name", VStr "foo"); ("main", VStr "a.js")] ]})
    ∧ get_prop (VObj props') "main" = Return (VArr [VStr "a.js"])
    ∧ ∀ k, k ≠ "main" →
           lookup_prop k props'
           = lookup_prop k [("name", VStr "foo"); ("main", VStr "a.js")].
Proof.
  apply (proj1 normalize_wraps_main_and_is_idempotent).
  - apply lookup_singleton_eq.
  - reflexivity.
Defined.

(** [read] on the broken file and on the manifest of [My-Pkg]. *)
Lemma read_tags_errors_with_resolved_path_witness :
  (∃ e, Json.read 1 "/broken/bower.json" no_options ∅ = Some (Throw e, ∅)
        ∧ code e = Some "EMALFORMED"
        ∧ file e = Some "/broken/bower.json"
        ∧ message e = "SyntaxError")
  ∧ (∃ e h', Json.read 1 "/pkg/.bower.json" no_options ∅ = Some (Throw e, h')
             ∧ file e = Some "/pkg/.bower.json"
             ∧ message e = "The name contains upper case letters"
             ∧ code e = Some "EINVALID").
Proof.
  split.
  - exact (proj1 read_tags_errors_with_resolved_path
             0%nat "/broken/bower.json" no_options ∅ "{"
             {| message := "SyntaxError"; code := None; file := None |}
             eq_refl eq_refl eq_refl).
  - assert (Hinvalid :
              Json.validate
                (if default false (opt_clone no_options)
                 then deepCopy (VObj [("name", VStr "My-Pkg"); ("main", VStr "a.js")])
                 else VObj [("name", VStr "My-Pkg"); ("main", VStr "a.js")])
                no_options
              = Throw (createError "The name contains upper case letters" "EINVALID"))
      by (vm_compute; reflexivity).
    exact (proj2 read_tags_errors_with_resolved_path
             0%nat "/pkg/.bower.json" no_options ∅ "manifest"
             (VObj [("name", VStr "My-Pkg"); ("main", VStr "a.js")])
             (createError "The name contains upper case letters" "EINVALID")
             eq_refl eq_refl eq_refl eq_refl Hinvalid).
Defined.

End Samples.

(** * Further properties of the code *)

(** ** Words of the structural pattern *)

Module WordsFacts.
Import RegExp Rules RegExpFacts RulesFacts Words.

Lemma forallb_weaken {A} (f g : A → bool) l :
  (∀ x, f x = true → g x = true) → forallb f l = true → forallb g l = true.
Proof.
  intros Hfg. induction l as [|x l IH]; simpl; auto.
  intros Hl. apply andb_prop in Hl as [Hx Hl]. rewrite (Hfg _ Hx), IH; auto.
Qed.

Lemma Matches_alphabet r w : Matches r w → forallb (alphabet r) w = true.
Proof.
  induction 1 as [|negated ranges ch Hc|r1 r2 s1 s2 Hm1 IH1 Hm2 IH2
                  |r1 r2 s Hm IH|r1 r2 s Hm IH|r|r s1 s2 Hm1 IH1 Hm2 IH2]; simpl.
  - reflexivity.
  - rewrite Hc. reflexivity.
  - rewrite forallb_app. apply andb_true_intro. split.
    + eapply forallb_weaken; [|exact IH1]. intros ch ->. reflexivity.
    + eapply forallb_weaken; [|exact IH2]. intros ch ->. apply orb_true_r.
  - eapply forallb_weaken; [|exact IH]. intros ch ->. reflexivity.
  - eapply forallb_weaken; [|exact IH]. intros ch ->. apply orb_true_r.
  - reflexivity.
  - rewrite forallb_app. apply andb_true_intro. split; [|exact IH2].
    eapply forallb_weaken; [|exact IH1]. intros ch Hch. exact Hch.
Qed.

(** A property of words that the empty word has and that concatenation
    keeps passes from the words of [r] to those of [r*]. *)
Lemma Matches_Star_closed (P : list ascii → Prop) r :
  P [] → (∀ a b, P a → P b → P (a ++ b)) → (∀ w, Matches r w → P w) →
  ∀ w, Matches (Star r) w → P w.
Proof.
  intros Hnil Happ Hr w Hm. remember (Star r) as r' eqn:Heq.
  induction Hm; try discriminate; auto.
  injection Heq as ->. auto.
Qed.

Lemma clean_nil : clean [].
Proof. split; reflexivity. Qed.

Lemma well_separated_app w1 w2 :
  well_separated w1 = true → clean w2 → well_separated (w1 ++ w2) = true.
Proof.
  intros Hw1 [Hs2 Hw2]. induction w1 as [|a [|b rest] IH]; simpl in *; auto.
  - destruct w2 as [|b rest]; auto. simpl in Hs2.
    apply negb_true_iff in Hs2. rewrite Hs2, andb_false_r, Hw2. reflexivity.
  - apply andb_prop in Hw1 as [Hab Hrest]. rewrite Hab. auto.
Qed.

Lemma clean_app w1 w2 : clean w1 → clean w2 → clean (w1 ++ w2).
Proof.
  intros [Hs1 Hw1] Hc2. split; [|apply well_separated_app; auto].
  destruct w1; simpl; auto. apply Hc2.
Qed.

Lemma Az_not_separator ch :
  in_class false [(c "A", c "z")] ch = true → is_separator ch = false.
Proof.
  destruct ch as [[] [] [] [] [] [] [] []]; vm_compute; intros Hc;
    first [reflexivity | discriminate].
Qed.

Lemma Az09_not_separator ch :
  in_class false [(c "A", c "z"); (c "0", c "9")] ch = true →
  is_separator ch = false.
Proof.
  destruct ch as [[] [] [] [] [] [] [] []]; vm_compute; intros Hc;
    first [reflexivity | discriminate].
Qed.

Lemma clean_one ch : is_separator ch = false → clean [ch].
Proof. intros Hc. split; simpl; [rewrite Hc|]; reflexivity. Qed.

(** A letter or digit with the separator that may follow it. *)
Lemma piece_clean sep w : Matches (Cat Az09 (Opt (lit sep))) w → clean w.
Proof.
  intros Hm. apply Matches_Cat in Hm as (s1 & s2 & -> & Hm1 & Hm2).
  apply Matches_Chars in Hm1 as (a & -> & Ha). apply Az09_not_separator in Ha.
  apply Matches_Alt in Hm2 as [Hm2 | Hm2].
  - apply Matches_Chars in Hm2 as (b & -> & _).
    split; simpl; rewrite Ha; reflexivity.
  - apply Matches_Eps in Hm2 as ->. apply clean_one; auto.
Qed.

Lemma pieces_clean sep w :
  Matches (Star (Cat Az09 (Opt (lit sep)))) w → clean w.
Proof.
  apply (Matches_Star_closed clean);
    [apply clean_nil | apply clean_app | apply piece_clean].
Qed.

(** The words of the structural pattern: made of the characters of
    [[A-z0-9.-]], beginning with one of [[A-z]], ending with one of
    [[A-z0-9]], and with no two separators side by side. *)
Lemma structure_clean w : Matches (body re_structure) w → clean w.
Proof.
  unfold re_structure; simpl. intros Hm.
  apply Matches_Cat in Hm as (s1 & s2 & -> & Hm1 & Hm2).
  apply clean_app.
  - apply Matches_Alt in Hm1 as [Hm1 | Hm1].
    + apply Matches_Chars in Hm1 as (a & -> & Ha).
      apply clean_one, Az_not_separator; auto.
    + apply Matches_Eps in Hm1 as ->. apply clean_nil.
  - apply Matches_Alt in Hm2 as [Hm2 | Hm2];
      [|apply Matches_Eps in Hm2 as ->; apply clean_nil].
    apply Matches_Cat in Hm2 as (t1 & t2 & -> & Ht1 & Ht2).
    apply Matches_Cat in Ht2 as (t3 & t4 & -> & Ht3 & Ht4).
    apply Matches_Chars in Ht1 as (a & -> & Ha).
    apply Matches_Chars in Ht4 as (b & -> & Hb).
    apply clean_app; [apply clean_one, Az_not_separator; auto|].
    apply clean_app; [|apply clean_one, Az09_not_separator; auto].
    revert Ht3. apply (Matches_Star_closed clean);
      [apply clean_nil | apply clean_app |].
    intros w Hw. apply Matches_Cat in Hw as (u1 & u2 & -> & Hu1 & Hu2).
    apply clean_app; eapply pieces_clean; eauto.
Qed.

Lemma structure_first w :
  Matches (body re_structure) w →
  match w with ch :: _ => is_Az ch = true | [] => True end.
Proof.
  unfold re_structure; simpl. intros Hm.
  apply Matches_Cat in Hm as (s1 & s2 & -> & Hm1 & Hm2).
  apply Matches_Alt in Hm1 as [Hm1 | Hm1].
  - apply Matches_Chars in Hm1 as (a & -> & Ha). exact Ha.
  - apply Matches_Eps in Hm1 as ->. simpl.
    apply Matches_Alt in Hm2 as [Hm2 | Hm2];
      [|apply Matches_Eps in Hm2 as ->; exact I].
    apply Matches_Cat in Hm2 as (t1 & t2 & -> & Ht1 & Ht2).
    apply Matches_Chars in Ht1 as (a & -> & Ha). exact Ha.
Qed.

Lemma structure_last w :
  Matches (body re_structure) w → ends_clean w = true.
Proof.
  unfold re_structure, ends_clean; simpl. intros Hm.
  apply Matches_Cat in Hm as (s1 & s2 & -> & Hm1 & Hm2).
  apply Matches_Alt in Hm2 as [Hm2 | Hm2].
  - apply Matches_Cat in Hm2 as (t1 & t2 & -> & Ht1 & Ht2).
    apply Matches_Cat in Ht2 as (t3 & t4 & -> & Ht3 & Ht4).
    apply Matches_Chars in Ht4 as (b & -> & Hb).
    rewrite !app_assoc, rev_app_distr. simpl.
    rewrite (Az09_not_separator _ Hb). reflexivity.
  - apply Matches_Eps in Hm2 as ->. rewrite app_nil_r.
    apply Matches_Alt in Hm1 as [Hm1 | Hm1].
    + apply Matches_Chars in Hm1 as (a & -> & Ha). simpl.
      rewrite (Az_not_separator _ Ha). reflexivity.
    + apply Matches_Eps in Hm1 as ->. reflexivity.
Qed.

Lemma structure_alphabet ch :
  alphabet (body re_structure) ch = true → is_name_char ch = true.
Proof.
  destruct ch as [[] [] [] [] [] [] [] []]; vm_compute; intros Hc;
    first [reflexivity | discriminate].
Qed.

Lemma structure_name_chars w :
  Matches (body re_structure) w → forallb is_name_char w = true.
Proof.
  intros Hm. eapply forallb_weaken; [apply structure_alphabet|].
  apply Matches_alphabet; auto.
Qed.

(** Two dots side by side are two separators side by side. *)
Lemma well_separated_no_traversal s :
  well_separated (list_ascii_of_string s) = true → ¬ Spec.contains ".." s.
Proof.
  intros Hw (pre & post & Heq). rewrite Heq in Hw. clear Heq.
  induction pre as [|a [|b pre] IH]; simpl in Hw.
  - discriminate.
  - apply andb_prop in Hw as [_ Hw]. simpl in IH. auto.
  - apply andb_prop in Hw as [_ Hw]. auto.
Qed.

End WordsFacts.

(** ** The name validators, on every string *)

Section NameCoverage.
Import RegExp Rules RegExpFacts RulesFacts Words WordsFacts.
Context `{Engine}.

(** The name validators of the two revisions on a string. *)
Lemma Json_name_Part000_name s strictNames :
  Json.validatePackageName (VStr s) strictNames
  = (Part000.validatePackageName (VStr s) strictNames;; Return (VBool true)).
Proof.
  unfold Json.validatePackageName, Json.findPackageNameErrors,
    Part000.validatePackageName.
  destruct (negb (truthy (VStr s))); [reflexivity|].
  simpl get_prop. unfold js_ge; simpl.
  destruct (throw_if (50 <=? Z.of_nat (String.length s)) msg_name_too_long)
    as [[]|e]; simpl; auto.
  destruct (check_invalid_character s) as [[]|e]; simpl; auto.
  destruct (check_structure s) as [[]|e]; simpl; auto.
  destruct strictNames; auto.
  destruct (strict_checks s) as [[]|e]; reflexivity.
Qed.

(** X1. On a string the name validators of the two revisions do the same:
    they throw the same error or both accept. *)
Theorem name_validators_agree_on_strings s strictNames :
  Json.validatePackageName (VStr s) strictNames
  = (Part000.validatePackageName (VStr s) strictNames;; Return (VBool true)).
Proof. exact (Json_name_Part000_name s strictNames). Qed.

Lemma Json_name_accepted_iff s strictNames :
  Json.findPackageNameErrors (VStr s) strictNames = Return []
  ↔ s ≠ EmptyString ∧ (String.length s < 50)%nat ∧ test re_structure s = true
    ∧ (strictNames = true →
       Spec.has_upper s = false ∧ Spec.starts_lower s = true
       ∧ Spec.ends_lower s = true).
Proof.
  split.
  - unfold Json.findPackageNameErrors.
    destruct (truthy (VStr s)) eqn:Ht; simpl negb; cbv iota; [|discriminate].
    intros Hr. inv_bind_as Hr u1 Hlen. inv_bind_as Hr u2 Hinv.
    inv_bind_as Hr u3 Hre. inv_bind_as Hr u4 Hstrict.
    apply throw_if_Return, Z.leb_gt in Hlen.
    apply throw_if_Return, negb_false_iff in Hre.
    simpl in Ht. apply negb_true_iff, String.eqb_neq in Ht.
    split; [auto|]. split; [lia|]. split; [auto|].
    intros ->. destruct u4. apply strict_checks_Return in Hstrict. tauto.
  - intros (Hne & Hlen & Hre & Hcase).
    rewrite Json_name_passes by auto. destruct strictNames; [|reflexivity].
    destruct Hcase as (Hu & Hs & He); [reflexivity|].
    unfold strict_checks, check_no_upper, check_starts_lower, check_ends_lower,
      check_has_lower.
    rewrite test_re_upper, test_re_starts_lower, test_re_ends_lower, test_re_lower,
      Hu, Hs, He, (starts_lower_has_lower _ Hs). reflexivity.
Qed.

(** The strings that the name validators accept. *)
Lemma names_accepted_alike s strictNames :
  let accepted :=
    s ≠ EmptyString ∧ (String.length s < 50)%nat ∧ test re_structure s = true
    ∧ (strictNames = true →
       Spec.has_upper s = false ∧ Spec.starts_lower s = true
       ∧ Spec.ends_lower s = true) in
  (Json.validatePackageName (VStr s) strictNames = Return (VBool true) ↔ accepted)
  ∧ (Part000.validatePackageName (VStr s) strictNames = Return tt ↔ accepted).
Proof.
  intros accepted.
  assert (HJ : Json.validatePackageName (VStr s) strictNames = Return (VBool true)
               ↔ Json.findPackageNameErrors (VStr s) strictNames = Return []).
  { unfold Json.validatePackageName.
    destruct (Json_name_errors_shape (VStr s) strictNames) as [-> | (e & -> & _)];
      simpl; split; auto; discriminate. }
  assert (HP : Part000.validatePackageName (VStr s) strictNames = Return tt
               ↔ Json.validatePackageName (VStr s) strictNames = Return (VBool true)).
  { rewrite Json_name_Part000_name.
    destruct (Part000.validatePackageName (VStr s) strictNames) as [[]|e];
      simpl; split; auto; discriminate. }
  split; [|rewrite HP]; rewrite HJ; apply Json_name_accepted_iff.
Qed.

(** X2. What the name validators accept, in both revisions: a string is
    accepted exactly when it is not empty, is shorter than 50 characters and
    matches the structural pattern, and, in strict mode, has no upper case
    letter and a lower case letter first and last. *)
Theorem name_accepted_iff s strictNames :
  let accepted :=
    s ≠ EmptyString ∧ (String.length s < 50)%nat ∧ test re_structure s = true
    ∧ (strictNames = true →
       Spec.has_upper s = false ∧ Spec.starts_lower s = true
       ∧ Spec.ends_lower s = true) in
  (Json.validatePackageName (VStr s) strictNames = Return (VBool true) ↔ accepted)
  ∧ (Part000.validatePackageName (VStr s) strictNames = Return tt ↔ accepted).
Proof. exact (names_accepted_alike s strictNames). Qed.

(** X3. A string of 50 characters or more is turned away as too long, in
    both revisions and both modes, whatever it is made of. *)
Theorem long_name_is_rejected s strictNames :
  (50 <= String.length s)%nat →
  Json.validatePackageName (VStr s) strictNames
    = Throw (createError msg_name_too_long "EINVALID")
  ∧ Part000.validatePackageName (VStr s) strictNames
    = Throw (createError msg_name_too_long "EINVALID").
Proof.
  intros Hlen.
  assert (Hne : s ≠ EmptyString) by (intros ->; simpl in Hlen; lia).
  assert (HP : Part000.validatePackageName (VStr s) strictNames
               = Throw (createError msg_name_too_long "EINVALID")).
  { unfold Part000.validatePackageName.
    rewrite (truthy_string _ Hne); simpl negb; cbv iota.
    simpl get_prop. unfold js_ge; simpl.
    replace (50 <=? Z.of_nat (String.length s)) with true
      by (symmetry; apply Z.leb_le; lia).
    reflexivity. }
  rewrite Json_name_Part000_name, HP. split; reflexivity.
Qed.

(** X4. [findPackageNameErrors] never returns an error: on every value and
    in both modes it returns the empty list or throws, and what it throws
    has the code EINVALID and no file. *)
Theorem findPackageNameErrors_returns_nothing name strictNames :
  Json.findPackageNameErrors name strictNames = Return []
  ∨ ∃ e, Json.findPackageNameErrors name strictNames = Throw e
         ∧ code e = Some "EINVALID" ∧ file e = None.
Proof.
  unfold Json.findPackageNameErrors, check_invalid_character, check_structure,
    strict_checks, check_no_upper, check_starts_lower, check_ends_lower,
    check_has_lower, throw_if.
  destruct (negb (truthy name)); eauto.
  destruct name; eauto.
  destruct (50 <=? Z.of_nat (String.length s)); simpl; eauto.
  destruct (negb (test re_invalid_character s)); simpl; eauto.
  destruct (negb (test re_structure s)); simpl; eauto.
  destruct strictNames; simpl; auto.
  destruct (test re_upper s); simpl; eauto.
  destruct (negb (test re_starts_lower s)); simpl; eauto.
  destruct (negb (test re_ends_lower s)); simpl; eauto.
  destruct (negb (test re_lower s)); simpl; eauto.
Qed.

Lemma accepted_name_structure s strictNames :
  Json.validatePackageName (VStr s) strictNames = Return (VBool true)
  ∨ Part000.validatePackageName (VStr s) strictNames = Return tt →
  Matches (body re_structure) (list_ascii_of_string s).
Proof.
  intros Hacc. apply test_anchored.
  destruct Hacc as [Hacc | Hacc];
    apply (names_accepted_alike s strictNames) in Hacc; tauto.
Qed.

(** X5. A name that a name validator accepts, in either revision and mode,
    is made of characters of [[A-z0-9.-]] and begins with one of [[A-z]]. *)
Theorem accepted_name_characters s strictNames :
  Json.validatePackageName (VStr s) strictNames = Return (VBool true)
  ∨ Part000.validatePackageName (VStr s) strictNames = Return tt →
  forallb is_name_char (list_ascii_of_string s) = true
  ∧ ∃ ch rest, list_ascii_of_string s = ch :: rest ∧ is_Az ch = true.
Proof.
  intros Hacc.
  assert (Hne : s ≠ EmptyString).
  { destruct Hacc as [Hacc | Hacc];
      apply (names_accepted_alike s strictNames) in Hacc; tauto. }
  apply accepted_name_structure in Hacc. split.
  - apply structure_name_chars; auto.
  - apply structure_first in Hacc.
    destruct s as [|ch rest]; [congruence|]. simpl in *. eauto.
Qed.

(** X6. In a name that a name validator accepts no two of [.] and [-] stand
    side by side and none stands first or last; the name does not contain
    [..]. *)
Theorem accepted_name_separators s strictNames :
  Json.validatePackageName (VStr s) strictNames = Return (VBool true)
  ∨ Part000.validatePackageName (VStr s) strictNames = Return tt →
  well_separated (list_ascii_of_string s) = true
  ∧ starts_clean (list_ascii_of_string s) = true
  ∧ ends_clean (list_ascii_of_string s) = true
  ∧ ¬ Spec.contains ".." s.
Proof.
  intros Hacc. apply accepted_name_structure in Hacc.
  destruct (structure_clean _ Hacc) as [Hs Hw].
  split; [auto|]. split; [auto|]. split; [apply structure_last; auto|].
  apply well_separated_no_traversal; auto.
Qed.

End NameCoverage.

(** ** The dependency validators, on every mapping of strings *)

Section DependencyCoverage.
Import RegExp Rules RegExpFacts RulesFacts.
Context `{Engine} `{Platform} `{Classifiers}.

Lemma Json_find_name_agrees s strictNames :
  Json.findPackageNameErrors (VStr s) strictNames
  = (Part000.validatePackageName (VStr s) strictNames;; Return []).
Proof.
  pose proof (Json_name_Part000_name s strictNames) as Hagree.
  unfold Json.validatePackageName in Hagree.
  destruct (Json_name_errors_shape (VStr s) strictNames) as [HJ | (e & HJ & _)];
    rewrite HJ in *; simpl in Hagree;
    destruct (Part000.validatePackageName (VStr s) strictNames) as [[]|e'];
    simpl in *; congruence.
Qed.

Lemma Part000_dependencies_loop_iff deps strictNames names :
  (∀ name, In name names → ∃ s, get_prop deps name = Return (VStr s)) →
  forEach (Part000.dependency_entry deps strictNames) names tt = Return tt
  ↔ Accepts.names_accepted strictNames names ∧ Accepts.plain_resources deps names.
Proof.
  unfold Accepts.names_accepted, Accepts.plain_resources.
  induction names as [|name names IH]; intros Hstr.
  - simpl. split; [intros _; split; [intros ? [] | intros ? ? []] | reflexivity].
  - destruct (Hstr name) as (s & Hs); [left; auto|].
    rewrite forEach_cons, (Part000_dependency_entry_string _ _ _ _ Hs).
    assert (Hstr' : ∀ n, In n names → ∃ s, get_prop deps n = Return (VStr s))
      by (intros; apply Hstr; right; auto).
    specialize (IH Hstr').
    destruct (Part000_name_shape name strictNames) as [Hn | (e & Hn & _)];
      rewrite Hn; simpl.
    + destruct (test re_traversal s) eqn:Ht; simpl.
      * split; [discriminate|]. intros [_ Hplain].
        apply test_re_traversal in Ht. exfalso.
        apply (Hplain name s); [left; reflexivity | exact Hs | exact Ht].
      * rewrite IH. split.
        -- intros [Hacc Hplain]. split.
           ++ intros n [<- | Hin]; auto.
           ++ intros n s' [<- | Hin] Hs'; eauto.
              rewrite Hs in Hs'. injection Hs' as <-.
              rewrite <- test_re_traversal. congruence.
        -- intros [Hacc Hplain]. split.
           ++ intros n Hin. apply Hacc. right; auto.
           ++ intros n s' Hin Hs'. apply (Hplain n s'); [right; exact Hin | exact Hs'].
    + split; [discriminate|]. intros [Hacc _].
      rewrite Hacc in Hn by (left; auto). discriminate.
Qed.

Lemma Json_dependencies_loop_iff deps strictNames names errors :
  (∀ name, In name names → ∃ s, get_prop deps name = Return (VStr s)) →
  match forEach (Json.dependency_entry deps strictNames) names errors with
  | Return errors' =>
      Accepts.names_accepted strictNames names
      ∧ ∃ more, errors' = errors ++ more
                ∧ (more = [] ↔ Accepts.plain_resources deps names)
  | Throw _ => ¬ Accepts.names_accepted strictNames names
  end.
Proof.
  unfold Accepts.names_accepted, Accepts.plain_resources.
  revert errors. induction names as [|name names IH]; intros errors Hstr.
  - simpl. split; [intros ? []|]. exists []. rewrite app_nil_r.
    split; [reflexivity|]. split; [intros _ ? ? [] | reflexivity].
  - destruct (Hstr name) as (s & Hs); [left; auto|].
    rewrite forEach_cons, (Json_dependency_entry_string _ _ _ _ _ Hs).
    assert (Hstr' : ∀ n, In n names → ∃ s, get_prop deps n = Return (VStr s))
      by (intros; apply Hstr; right; auto).
    rewrite Json_find_name_agrees.
    destruct (Part000.validatePackageName (VStr name) strictNames) as [[]|e] eqn:Hn;
      simpl.
    + rewrite app_nil_r.
      set (errors1 := if test re_traversal s
                      then errors ++ [createError msg_traversal "EINVALID"]
                      else errors).
      specialize (IH errors1 Hstr').
      destruct (forEach (Json.dependency_entry deps strictNames) names errors1)
        as [errors'|e].
      * destruct IH as (Hacc & more & -> & Hmore). split.
        { intros n [<- | Hin]; auto. }
        unfold errors1. destruct (test re_traversal s) eqn:Ht.
        -- exists (createError msg_traversal "EINVALID" :: more).
           rewrite <- app_assoc. split; [reflexivity|].
           split; [discriminate|]. intros Hplain.
           apply test_re_traversal in Ht. exfalso.
           apply (Hplain name s); [left; reflexivity | exact Hs | exact Ht].
        -- exists more. split; [reflexivity|]. rewrite Hmore. split.
           ++ intros Hplain n s' [<- | Hin] Hs'; eauto.
              rewrite Hs in Hs'. injection Hs' as <-.
              rewrite <- test_re_traversal. congruence.
           ++ intros Hplain n s' Hin Hs'. apply (Hplain n s'); [right; exact Hin | exact Hs'].
      * intros Hacc. apply IH. intros n Hin. apply Hacc. right; auto.
    + intros Hacc. rewrite Hacc in Hn by (left; auto). discriminate.
Qed.

(** X7. On a mapping whose resources are strings, the dependency validators
    of both revisions accept exactly when every key is a name the name
    validator accepts and no resource contains [..]. *)
Theorem dependencies_accepted_iff deps strictNames :
  let names := map fst (own_props deps) in
  let accepted :=
    Accepts.names_accepted strictNames names ∧ Accepts.plain_resources deps names in
  is_object deps = true →
  (∀ name, In name names → ∃ s, get_prop deps name = Return (VStr s)) →
  (Json.validateDependencies deps strictNames = Return tt ↔ accepted)
  ∧ (Part000.validateDependencies deps strictNames = Return tt ↔ accepted).
Proof.
  intros names accepted Ho Hstr. split.
  - unfold Json.validateDependencies, Json.findDependencyErrors. rewrite Ho.
    pose proof (Json_dependencies_loop_iff deps strictNames names [] Hstr) as Hloop.
    fold names.
    destruct (forEach (Json.dependency_entry deps strictNames) names [])
      as [errors'|e]; simpl.
    + destruct Hloop as (Hacc & more & -> & Hmore). simpl.
      unfold accepted. rewrite <- Hmore.
      destruct more; simpl; split; auto; try discriminate.
      intros [_ Hnil]. discriminate.
    + split; [discriminate|]. intros [Hacc _]. destruct (Hloop Hacc).
  - unfold Part000.validateDependencies. rewrite Ho.
    apply Part000_dependencies_loop_iff; auto.
Qed.

(** X8. An array counts as a mapping whose keys are its indices, so an array
    that is not empty is turned away as soon as its first index is taken for
    a name, in both revisions and both modes. *)
Theorem array_of_dependencies_is_rejected x items strictNames :
  Json.validateDependencies (VArr (x :: items)) strictNames
    = Throw (createError "The name is malformed: 0" "EINVALID")
  ∧ Part000.validateDependencies (VArr (x :: items)) strictNames
    = Throw (createError "The name is malformed: 0" "EINVALID").
Proof. split; vm_compute; reflexivity. Qed.

End DependencyCoverage.

(** ** What the patterns of the [main] rules say *)

Module MainFacts.
Import RegExp Rules RegExpFacts RulesFacts WordsFacts.

Lemma in_class_star ch :
  in_class false [(c "*", c "*")] ch = Ascii.eqb (c "*") ch.
Proof. destruct ch as [[] [] [] [] [] [] [] []]; reflexivity. Qed.

Lemma in_class_not_slash ch :
  in_class true [(c "/", c "/")] ch = negb (Ascii.eqb ch (c "/")).
Proof. destruct ch as [[] [] [] [] [] [] [] []]; reflexivity. Qed.

Lemma in_class_is ch s :
  in_class false [(c s, c s)] ch = true ↔ ch = c s.
Proof.
  rewrite in_class_one, andb_true_iff, !Nat.leb_le. split.
  - intros [Hlo Hhi].
    rewrite <- (ascii_nat_embedding ch), <- (ascii_nat_embedding (c s)).
    f_equal. lia.
  - intros ->. lia.
Qed.

Lemma test_re_glob f : test re_glob f = Accepts.has_glob f.
Proof.
  unfold re_glob, lit, Accepts.has_glob. rewrite test_class_anywhere.
  apply existsb_pointwise. apply in_class_star.
Qed.

Lemma Matches_Star_Chars negated ranges w :
  Matches (Star (Chars negated ranges)) w
  ↔ forallb (in_class negated ranges) w = true.
Proof.
  split.
  - apply (Matches_Star_closed (λ w, forallb (in_class negated ranges) w = true)).
    + reflexivity.
    + intros a b Ha Hb. rewrite forallb_app, Ha, Hb. reflexivity.
    + intros w' Hm. apply Matches_Chars in Hm as (ch & -> & Hc).
      simpl. rewrite Hc. reflexivity.
  - induction w as [|ch w IH]; simpl; [constructor|].
    intros Hw. apply andb_prop in Hw as [Hc Hw].
    change (ch :: w) with ([ch] ++ w). constructor; auto. constructor; auto.
Qed.

Lemma Matches_lit s w : Matches (lit s) w ↔ w = [c s].
Proof.
  unfold lit. rewrite Matches_Chars. split.
  - intros (ch & -> & Hc). apply in_class_is in Hc. congruence.
  - intros ->. exists (c s). split; auto. apply in_class_is. reflexivity.
Qed.

Lemma test_re_minified f : test re_minified f = true ↔ Accepts.minified f.
Proof.
  unfold re_minified, Accepts.minified, Plus. rewrite test_anchored_end. split.
  - intros (pre & mid & Heq & Hm).
    apply Matches_Cat in Hm as (w1 & r1 & -> & Hw1 & Hm).
    apply Matches_Cat in Hm as (w2 & r2 & -> & Hw2 & Hm).
    apply Matches_Cat in Hm as (w3 & r3 & -> & Hw3 & Hm).
    apply Matches_Cat in Hm as (w4 & r4 & -> & Hw4 & Hm).
    apply Matches_Cat in Hm as (w5 & r5 & -> & Hw5 & Hm).
    apply Matches_Cat in Hm as (w6 & r6 & -> & Hw6 & Hm).
    apply Matches_lit in Hw1, Hw2, Hw3, Hw4, Hw5. subst.
    apply Matches_Chars in Hw6 as (ch & -> & Hc).
    apply Matches_Star_Chars in Hm.
    exists pre, (ch :: r6). split; [exact Heq|]. split; [discriminate|].
    simpl. rewrite <- !in_class_not_slash, Hc.
    erewrite forallb_weaken; eauto. intros x Hx. rewrite <- in_class_not_slash; auto.
  - intros (pre & ext & Heq & Hne & Hext).
    destruct ext as [|ch ext]; [congruence|]. simpl in Hext.
    apply andb_prop in Hext as [Hc Hext].
    exists pre, (list_ascii_of_string ".min." ++ ch :: ext). split; [exact Heq|].
    change (list_ascii_of_string ".min." ++ ch :: ext)
      with ([c "."] ++ [c "m"] ++ [c "i"] ++ [c "n"] ++ [c "."] ++ [ch] ++ ext).
    repeat (apply MCat; [apply Matches_lit; reflexivity|]).
    apply MCat.
    + constructor. rewrite in_class_not_slash. exact Hc.
    + apply Matches_Star_Chars. eapply forallb_weaken; [|exact Hext].
      intros x Hx. rewrite in_class_not_slash. exact Hx.
Qed.

End MainFacts.

(** ** The two revisions of [validate], side by side *)

Section ValidateCoverage.
Import RegExp Rules RegExpFacts RulesFacts MainFacts.
Context `{Engine} `{Platform} `{Classifiers}.

Lemma Return_bind {A B} (a : A) (f : A → result B) : Return a ≫= f = f a.
Proof. reflexivity. Qed.

Lemma app_eq_self {A} (l more : list A) : l ++ more = l → more = [].
Proof.
  intros Heq. apply (app_inv_head l). rewrite app_nil_r. exact Heq.
Qed.

Lemma Part000_main_entry_inv groups x groups' :
  Part000.main_entry groups x = Return groups' →
  ∃ f, x = VStr f
       ∧ test re_glob f = false ∧ test re_minified f = false
       ∧ isAsset x = false
       ∧ groups' = (if 2 <=? Z.of_nat (String.length (path_extname f))
                    then add_file (path_extname f) x groups else groups).
Proof.
  unfold Part000.main_entry. intros Hr.
  inv_bind_as Hr u1 Hstring. apply throw_if_Return, negb_false_iff in Hstring.
  destruct x; try discriminate. simpl in Hr.
  inv_bind_as Hr u2 Hglob. inv_bind_as Hr u3 Hmin. inv_bind_as Hr u4 Hasset.
  apply throw_if_Return in Hglob, Hmin, Hasset.
  injection Hr as <-. eauto 10.
Qed.

Lemma Part000_main_entry_Json groups x groups' errors :
  Part000.main_entry groups x = Return groups' →
  Json.main_entry (errors, groups) x = Return (errors, groups').
Proof.
  intros Hr. apply Part000_main_entry_inv in Hr
    as (f & -> & Hglob & Hmin & Hasset & ->).
  unfold Json.main_entry. simpl. rewrite Hglob, Hmin, Hasset. reflexivity.
Qed.

Lemma Json_main_entry_Part000 groups x errors errors' groups' :
  Json.main_entry (errors, groups) x = Return (errors', groups') →
  ∃ more, errors' = errors ++ more
          ∧ (more = [] → Part000.main_entry groups x = Return groups').
Proof.
  unfold Json.main_entry, Part000.main_entry. intros Hr.
  inv_bind_as Hr s Hs. inv_bind_as Hr ext Hext. rewrite Hs, Hext.
  injection Hr as <- <-. simpl.
  destruct (is_string x), (test re_glob s), (test re_minified s), (isAsset x);
    simpl; rewrite <- ?app_assoc;
    (eexists; split; [first [reflexivity | symmetry; apply app_nil_r]|]);
    first [discriminate | intros _; reflexivity].
Qed.

Lemma Part000_main_entries_Json items groups groups' errors :
  forEach Part000.main_entry items groups = Return groups' →
  forEach Json.main_entry items (errors, groups) = Return (errors, groups').
Proof.
  revert groups. induction items as [|x items IH]; intros groups Hr.
  - injection Hr as <-. reflexivity.
  - rewrite forEach_cons in *. inv_bind_as Hr groups1 Hx.
    rewrite (Part000_main_entry_Json _ _ _ errors Hx). simpl. auto.
Qed.

Lemma Json_main_entries_Part000 items groups groups' errors :
  forEach Json.main_entry items (errors, groups) = Return (errors, groups') →
  forEach Part000.main_entry items groups = Return groups'.
Proof.
  revert groups errors. induction items as [|x items IH]; intros groups errors Hr.
  - injection Hr as <-. reflexivity.
  - rewrite forEach_cons in *. inv_bind_as Hr acc Hx.
    destruct acc as [errors1 groups1].
    destruct (Json_main_entry_Part000 _ _ _ _ _ Hx) as (more1 & -> & Hsame).
    destruct (main_entries_grow _ _ _ _ _ Hr) as (more2 & Hmore2).
    rewrite <- app_assoc in Hmore2. symmetry in Hmore2.
    apply app_eq_self, app_eq_nil in Hmore2 as [-> _].
    rewrite app_nil_r in Hr. rewrite Hsame by reflexivity. simpl. eauto.
Qed.

Lemma Part000_groups_Json groups errors :
  forEach Part000.group_entry groups tt = Return tt →
  fold_left Json.group_entry groups errors = errors.
Proof.
  induction groups as [|[ext files] groups IH]; intros Hr; [reflexivity|].
  rewrite forEach_cons in Hr. inv_bind_as Hr u Hg. destruct u.
  unfold Part000.group_entry in Hg. apply throw_if_Return in Hg.
  simpl. rewrite Hg. auto.
Qed.

Lemma Json_groups_Part000 groups errors :
  fold_left Json.group_entry groups errors = errors →
  forEach Part000.group_entry groups tt = Return tt.
Proof.
  revert errors. induction groups as [|[ext files] groups IH]; intros errors Hr;
    [reflexivity|].
  rewrite forEach_cons. simpl in *.
  destruct (1 <? Z.of_nat (length files)) eqn:Hbig.
  - exfalso.
    destruct (group_entries_grow groups
                (errors ++ [createError (msg_main_multiple ext files) "EINVALID"]))
      as (more & Hmore).
    rewrite Hmore, <- app_assoc in Hr. apply app_eq_self in Hr. discriminate.
  - simpl. eauto.
Qed.


Lemma Part000_dependency_entry_Json deps strictNames name errors :
  Part000.dependency_entry deps strictNames tt name = Return tt →
  Json.dependency_entry deps strictNames errors name = Return errors.
Proof.
  unfold Part000.dependency_entry, Json.dependency_entry. intros Hr.
  inv_bind_as Hr resource Hresource. inv_bind_as Hr u Hname.
  inv_bind_as Hr s Hs. apply throw_if_Return in Hr.
  rewrite Hresource, Return_bind, Json_find_name_agrees, Hname, !Return_bind.
  rewrite Hs, Return_bind, Hr, app_nil_r. reflexivity.
Qed.

Lemma Json_dependency_entry_Part000 deps strictNames name errors errors' :
  Json.dependency_entry deps strictNames errors name = Return errors' →
  (Part000.dependency_entry deps strictNames tt name = Return tt ∧ errors' = errors)
  ∨ Part000.dependency_entry deps strictNames tt name
    = Throw (createError msg_traversal "EINVALID").
Proof.
  unfold Part000.dependency_entry, Json.dependency_entry. intros Hr.
  inv_bind_as Hr resource Hresource. inv_bind_as Hr found Hname.
  inv_bind_as Hr s Hs. injection Hr as <-.
  rewrite Json_find_name_agrees in Hname. inv_bind_as Hname u Hu.
  injection Hname as <-. destruct u.
  rewrite Hresource, Return_bind, Hu, Return_bind, Hs, Return_bind.
  destruct (test re_traversal s); simpl; [right; reflexivity|].
  left. rewrite app_nil_r. auto.
Qed.

Lemma Part000_dependencies_Json deps strictNames :
  Part000.validateDependencies deps strictNames = Return tt →
  Json.findDependencyErrors deps strictNames = Return [].
Proof.
  unfold Part000.validateDependencies, Json.findDependencyErrors.
  destruct (is_object deps); [|reflexivity].
  generalize (@nil error) as errors.
  induction (map fst (own_props deps)) as [|name names IH]; intros errors Hr;
    [reflexivity|].
  rewrite forEach_cons in *. inv_bind_as Hr u Hname. destruct u.
  rewrite (Part000_dependency_entry_Json _ _ _ errors Hname). simpl. auto.
Qed.

Lemma Json_dependencies_Part000 deps strictNames found :
  Json.findDependencyErrors deps strictNames = Return found →
  Part000.validateDependencies deps strictNames = Return tt
  ∨ Part000.validateDependencies deps strictNames
    = Throw (createError msg_traversal "EINVALID").
Proof.
  unfold Part000.validateDependencies, Json.findDependencyErrors.
  destruct (is_object deps); [|auto].
  generalize (@nil error) as errors. revert found.
  induction (map fst (own_props deps)) as [|name names IH]; intros found errors Hr;
    [auto|].
  rewrite forEach_cons in *. inv_bind_as Hr errors1 Hname.
  destruct (Json_dependency_entry_Part000 _ _ _ _ _ Hname) as [[-> ->] | ->];
    simpl; eauto.
Qed.

(** What [findErrors] went through when it returns no error. *)
Lemma Json_findErrors_nil json options :
  let strictNames := default true (opt_strictNames options) in
  Json.findErrors json options = Return [] →
  ∃ name description main dependencies devDependencies found1 found2,
    get_prop json "name" = Return name
    ∧ (default true (opt_enforceNameExists options) = true →
       has_length name = Return true)
    ∧ (truthy name = true →
       Json.findPackageNameErrors name strictNames = Return [])
    ∧ get_prop json "description" = Return description
    ∧ (if truthy description
       then len ← get_prop description "length"; js_gt len 140
       else Return false) = Return false
    ∧ get_prop json "main" = Return main
    ∧ (is_defined main = true →
       ∃ items groups,
         (if is_string main then VArr [main] else main) = VArr items
         ∧ forEach Json.main_entry items ([], []) = Return ([], groups)
         ∧ fold_left Json.group_entry groups [] = [])
    ∧ get_prop json "dependencies" = Return dependencies
    ∧ Json.findDependencyErrors dependencies strictNames = Return found1
    ∧ get_prop json "devDependencies" = Return devDependencies
    ∧ Json.findDependencyErrors devDependencies strictNames = Return found2.
Proof.
  intros strictNames Herrors. unfold Json.findErrors in Herrors.
  fold strictNames in Herrors.
  inv_bind_as Herrors errors1 Hstep1.
  inv_bind_as Herrors name Hname.
  inv_bind_as Herrors errors2 Hstep2.
  inv_bind_as Herrors description Hdescription.
  inv_bind_as Herrors too_long Hlong.
  inv_bind_as Herrors main Hmain.
  inv_bind_as Herrors errors3 Hstep3.
  inv_bind_as Herrors deps Hdeps.
  inv_bind_as Herrors found1 Hfound1.
  inv_bind_as Herrors dev Hdev.
  inv_bind_as Herrors found2 Hfound2.
  injection Herrors as ->.
  assert (Hgrow2 : ∃ more, errors2 = errors1 ++ more).
  { destruct (truthy name).
    - inv_bind_as Hstep2 found Hfound. injection Hstep2 as <-. eauto.
    - injection Hstep2 as <-. exists []. symmetry. apply app_nil_r. }
  set (errors2' := if (too_long : bool)
                   then errors2 ++ [createError msg_description "EINVALID"]
                   else errors2) in *.
  assert (Hmain' : errors2' = []
            ∧ (is_defined main = true →
               ∃ items groups,
                 (if is_string main then VArr [main] else main) = VArr items
                 ∧ forEach Json.main_entry items ([], []) = Return ([], groups)
                 ∧ fold_left Json.group_entry groups [] = [])).
  { destruct (is_defined main).
    - destruct (if is_string main then VArr [main] else main) as [| | | | |items|];
        try discriminate.
      inv_bind_as Hstep3 acc Hacc. destruct acc as [errors' groups'].
      injection Hstep3 as Heq. simpl in Hacc.
      destruct (group_entries_grow groups' errors') as (more2 & Hmore2).
      rewrite Hmore2 in Heq. apply app_eq_nil in Heq as [-> ->].
      rewrite app_nil_r in Hmore2.
      destruct (main_entries_grow _ _ _ _ _ Hacc) as (more1 & Hmore1).
      symmetry in Hmore1. apply app_eq_nil in Hmore1 as [Hnil _].
      rewrite Hnil in *. split; [reflexivity|]. intros _. eauto.
    - injection Hstep3 as Heq. split; [exact Heq | discriminate]. }
  destruct Hmain' as [Hnil Hmain'].
  assert (Hlong' : too_long = false ∧ errors2 = []).
  { unfold errors2' in Hnil. destruct too_long; [|auto].
    apply app_eq_nil in Hnil as [_ Hnil]. discriminate. }
  destruct Hlong' as [-> ->]. destruct Hgrow2 as (more & Hgrow2).
  symmetry in Hgrow2. apply app_eq_nil in Hgrow2 as [-> _].
  exists name, description, main, deps, dev, found1, found2.
  split; [exact Hname|]. split.
  { intros Henforce. rewrite Henforce, Hname, Return_bind in Hstep1.
    inv_bind_as Hstep1 named Hnamed. destruct named; [exact Hnamed | discriminate]. }
  split.
  { intros Ht. rewrite Ht in Hstep2. inv_bind_as Hstep2 found Hfound.
    injection Hstep2 as Heq. simpl in Heq. subst. exact Hfound. }
  repeat (split; [assumption|]). assumption.
Qed.

(** X9. Whatever the earlier revision of [validate] accepts, [validate] of
    [lib/json.js] accepts too, with the same options, unless the name is
    something else than a string. *)
Theorem earlier_accepted_is_accepted json options r :
  Part000.validate json options = Return r →
  (∀ name, get_prop json "name" = Return name → truthy name = true →
           is_string name = true) →
  Json.validate json options = Return r.
Proof.
  intros Hr Hstring. unfold Part000.validate in Hr.
  inv_bind_as Hr u1 Hstep1.
  inv_bind_as Hr name Hname.
  inv_bind_as Hr u2 Hstep2.
  inv_bind_as Hr description Hdescription.
  inv_bind_as Hr too_long Hlong.
  inv_bind_as Hr u3 Hstep3.
  inv_bind_as Hr main Hmain.
  inv_bind_as Hr u4 Hstep4.
  inv_bind_as Hr dependencies Hdependencies.
  inv_bind_as Hr u5 Hchecked1.
  inv_bind_as Hr devDependencies HdevDependencies.
  inv_bind_as Hr u6 Hchecked2.
  injection Hr as <-. destruct u5, u6.
  apply throw_if_Return in Hstep3. subst too_long.
  unfold Json.validate, Json.findErrors.
  rewrite Hname, Hdescription, Hmain, Hdependencies, HdevDependencies.
  assert (Hone : (if default true (opt_enforceNameExists options)
                  then Return name ≫= λ name, has_length name ≫= λ named : bool,
                         Return (if negb named
                                 then [] ++ [createError "The name must not be empty"
                                                          "EINVALID"]
                                 else [])
                  else Return []) = Return []).
  { destruct (default true (opt_enforceNameExists options)); [|reflexivity].
    rewrite Hname, Return_bind in Hstep1. rewrite Return_bind.
    inv_bind_as Hstep1 named Hnamed. apply throw_if_Return, negb_false_iff in Hstep1.
    subst named. rewrite Hnamed. reflexivity. }
  rewrite Hone, !Return_bind. clear Hone.
  assert (Htwo : (if truthy name
                  then Json.findPackageNameErrors name
                         (default true (opt_strictNames options))
                       ≫= λ found, Return ([] ++ found)
                  else Return []) = Return []).
  { destruct (truthy name) eqn:Ht; [|reflexivity].
    specialize (Hstring name Hname Ht).
    destruct name; try discriminate.
    rewrite Json_find_name_agrees, Hstep2. reflexivity. }
  rewrite Htwo, !Return_bind. clear Htwo. rewrite Hlong, !Return_bind.
  cbv iota.
  assert (Hthree :
            (if is_defined main
             then
               match (if is_string main then VArr [main] else main) with
               | VArr items =>
                   forEach Json.main_entry items
                     (if negb (is_array (if is_string main then VArr [main] else main))
                      then [] ++ [createError msg_main_type "EINVALID"]
                      else [], [])
                   ≫= λ acc, let '(errors, ext2files) := acc in
                             Return (fold_left Json.group_entry ext2files errors)
               | _ => Throw TypeError
               end
             else Return []) = Return []).
  { destruct (is_defined main); [|reflexivity].
    inv_bind_as Hstep4 u7 Harray. apply throw_if_Return, negb_false_iff in Harray.
    rewrite Harray. simpl negb. cbv iota.
    destruct (if is_string main then VArr [main] else main) as [| | | | |items|];
      try discriminate.
    inv_bind_as Hstep4 groups Hgroups.
    rewrite (Part000_main_entries_Json _ _ _ [] Hgroups), Return_bind.
    destruct u4. rewrite (Part000_groups_Json _ [] Hstep4). reflexivity. }
  rewrite Hthree, !Return_bind.
  rewrite (Part000_dependencies_Json _ _ Hchecked1), Return_bind,
    (Part000_dependencies_Json _ _ Hchecked2). reflexivity.
Qed.

(** X10. Whatever [validate] of [lib/json.js] accepts, the earlier revision
    accepts too, or turns away for one reason only: a dependency resource
    that contains [..]. *)
Theorem accepted_is_earlier_accepted_but_for_traversal json options r :
  Json.validate json options = Return r →
  Part000.validate json options = Return r
  ∨ Part000.validate json options = Throw (createError msg_traversal "EINVALID").
Proof.
  intros Hr. unfold Json.validate in Hr. inv_bind_as Hr errors Herrors.
  destruct errors as [|e errors]; [|discriminate]. injection Hr as <-.
  apply Json_findErrors_nil in Herrors
    as (name & description & main & deps & dev & found1 & found2
        & Hname & Hnamed & Hfound & Hdescription & Hlong & Hmain & Hentries
        & Hdeps & Hfound1 & Hdev & Hfound2).
  unfold Part000.validate.
  rewrite Hname, Hdescription, Hmain, Hdeps, Hdev.
  assert (Hone : (if default true (opt_enforceNameExists options)
                  then Return name ≫= λ name, has_length name ≫= λ named : bool,
                         throw_if (negb named) "The name must not be empty"
                  else Return tt) = Return tt).
  { destruct (default true (opt_enforceNameExists options)); [|reflexivity].
    rewrite Return_bind, Hnamed by reflexivity. reflexivity. }
  rewrite Hone, !Return_bind. clear Hone.
  assert (Htwo : (if truthy name
                  then Part000.validatePackageName name
                         (default true (opt_strictNames options))
                  else Return tt) = Return tt).
  { destruct (truthy name) eqn:Ht; [|reflexivity].
    specialize (Hfound eq_refl).
    assert (Hs : ∃ s, name = VStr s).
    { unfold Json.findPackageNameErrors in Hfound. rewrite Ht in Hfound.
      destruct name; try discriminate. eauto. }
    destruct Hs as (s & ->). rewrite Json_find_name_agrees in Hfound.
    destruct (Part000.validatePackageName (VStr s)
                (default true (opt_strictNames options))) as [[]|e];
      [reflexivity | discriminate]. }
  rewrite Htwo, !Return_bind. clear Htwo. rewrite Hlong, !Return_bind.
  simpl throw_if. rewrite !Return_bind.
  assert (Hthree : (if is_defined main
                    then throw_if
                           (negb (is_array (if is_string main then VArr [main] else main)))
                           msg_main_type
                         ≫= λ _,
                           match (if is_string main then VArr [main] else main) with
                           | VArr items =>
                               forEach Part000.main_entry items []
                               ≫= λ ext2files, forEach Part000.group_entry ext2files tt
                           | _ => Throw TypeError
                           end
                    else Return tt) = Return tt).
  { destruct (is_defined main); [|reflexivity].
    destruct Hentries as (items & groups & -> & Hitems & Hgroups); [reflexivity|].
    simpl. rewrite (Json_main_entries_Part000 _ _ _ _ Hitems), Return_bind.
    apply (Json_groups_Part000 _ _ Hgroups). }
  rewrite Hthree, !Return_bind. clear Hthree.
  destruct (Json_dependencies_Part000 _ _ _ Hfound1) as [-> | ->];
    [rewrite !Return_bind | right; reflexivity].
  destruct (Json_dependencies_Part000 _ _ _ Hfound2) as [-> | ->];
    [left | right]; reflexivity.
Qed.


Lemma group_of_add_file ext ext' x groups :
  Accepts.group_of ext' (add_file ext x groups)
  = if String.eqb ext' ext then Accepts.group_of ext' groups ++ [x]
    else Accepts.group_of ext' groups.
Proof.
  induction groups as [|[e files] groups IH]; simpl.
  - destruct (String.eqb ext' ext); reflexivity.
  - destruct (String.eqb_spec ext e) as [<- | Hne]; simpl.
    + destruct (String.eqb ext' ext); reflexivity.
    + rewrite IH. destruct (String.eqb_spec ext' e) as [-> | Hne']; [|reflexivity].
      apply not_eq_sym, String.eqb_neq in Hne. rewrite Hne. reflexivity.
Qed.

Lemma Part000_main_entries_groups items groups groups' ext :
  forEach Part000.main_entry items groups = Return groups' →
  length (Accepts.group_of ext groups')
  = (length (Accepts.group_of ext groups)
     + count_occ string_dec (Accepts.long_extensions items) ext)%nat.
Proof.
  revert groups. induction items as [|x items IH]; intros groups Hr.
  - injection Hr as <-. simpl. lia.
  - rewrite forEach_cons in Hr. inv_bind_as Hr groups1 Hx.
    apply Part000_main_entry_inv in Hx as (f & -> & _ & _ & _ & ->).
    rewrite (IH _ Hr). unfold Accepts.long_extensions. simpl.
    destruct (2 <=? Z.of_nat (String.length (path_extname f))); simpl; [|lia].
    rewrite group_of_add_file.
    destruct (string_dec (path_extname f) ext) as [<- | Hne].
    + rewrite String.eqb_refl, length_app. simpl. lia.
    + apply not_eq_sym, String.eqb_neq in Hne. rewrite Hne. lia.
Qed.

Lemma Part000_groups_small groups ext :
  forEach Part000.group_entry groups tt = Return tt →
  (length (Accepts.group_of ext groups) <= 1)%nat.
Proof.
  induction groups as [|[e files] groups IH]; intros Hr; simpl; [lia|].
  rewrite forEach_cons in Hr. inv_bind_as Hr u Hg. destruct u.
  apply throw_if_Return, Z.ltb_ge in Hg.
  destruct (String.eqb ext e); [lia | auto].
Qed.

(** What both revisions make sure of on the entries of [main]. *)
Lemma Part000_main_entries_checked items groups :
  forEach Part000.main_entry items [] = Return groups →
  forEach Part000.group_entry groups tt = Return tt →
  (∀ x, In x items →
        ∃ f, x = VStr f ∧ Accepts.has_glob f = false ∧ ¬ Accepts.minified f
             ∧ isAsset x = false)
  ∧ List.NoDup (Accepts.long_extensions items).
Proof.
  intros Hitems Hgroups. split.
  - intros x Hin. destruct (forEach_Return _ _ _ _ Hitems x Hin) as (a & a' & Hx).
    apply Part000_main_entry_inv in Hx as (f & -> & Hglob & Hmin & Hasset & _).
    exists f. rewrite <- test_re_glob, <- test_re_minified.
    repeat split; auto. congruence.
  - apply (NoDup_count_occ string_dec). intros ext.
    pose proof (Part000_main_entries_groups _ _ _ ext Hitems) as Hcount.
    pose proof (Part000_groups_small _ ext Hgroups) as Hsmall.
    simpl in Hcount. lia.
Qed.

Lemma accepted_main_steps json options r main :
  Json.validate json options = Return r ∨ Part000.validate json options = Return r →
  get_prop json "main" = Return main → is_defined main = true →
  ∃ items groups,
    (if is_string main then VArr [main] else main) = VArr items
    ∧ forEach Part000.main_entry items [] = Return groups
    ∧ forEach Part000.group_entry groups tt = Return tt.
Proof.
  intros [Hr | Hr] Hmain Hdefined.
  - unfold Json.validate in Hr. inv_bind_as Hr errors Herrors.
    destruct errors as [|e errors]; [|discriminate].
    apply Json_findErrors_nil in Herrors
      as (name & description & main' & deps & dev & found1 & found2
          & _ & _ & _ & _ & _ & Hmain' & Hentries & _).
    rewrite Hmain in Hmain'. injection Hmain' as <-.
    destruct (Hentries Hdefined) as (items & groups & Hitems & Hloop & Hgroups).
    exists items, groups. split; [exact Hitems|].
    split; [eapply Json_main_entries_Part000 | eapply Json_groups_Part000]; eauto.
  - unfold Part000.validate in Hr.
    inv_bind_as Hr u1 Hstep1.
    inv_bind_as Hr name Hname.
    inv_bind_as Hr u2 Hstep2.
    inv_bind_as Hr description Hdescription.
    inv_bind_as Hr too_long Hlong.
    inv_bind_as Hr u3 Hstep3.
    inv_bind_as Hr main' Hmain'.
    inv_bind_as Hr u4 Hstep4.
    rewrite Hmain in Hmain'. injection Hmain' as <-.
    rewrite Hdefined in Hstep4. inv_bind_as Hstep4 u5 Harray.
    destruct (if is_string main then VArr [main] else main) as [| | | | |items|];
      try discriminate.
    inv_bind_as Hstep4 groups Hgroups. destruct u4. eauto.
Qed.

Lemma main_files_items main items :
  (if is_string main then VArr [main] else main) = VArr items →
  Accepts.main_files main = items ∧ (is_string main = true ∨ is_array main = true).
Proof.
  destruct main; simpl; intros Heq; try discriminate;
    injection Heq as <-; auto.
Qed.

(** X11. In a manifest that [validate] accepts, in either revision, a
    [description] that is a string has 140 characters at most. *)
Theorem accepted_description_is_short json options r s :
  Json.validate json options = Return r ∨ Part000.validate json options = Return r →
  get_prop json "description" = Return (VStr s) →
  (String.length s <= 140)%nat.
Proof.
  intros Hr Hdescription.
  assert (Hlong : (if truthy (VStr s)
                   then len ← get_prop (VStr s) "length"; js_gt len 140
                   else Return false) = Return false).
  { destruct Hr as [Hr | Hr].
    - unfold Json.validate in Hr. inv_bind_as Hr errors Herrors.
      destruct errors as [|e errors]; [|discriminate].
      apply Json_findErrors_nil in Herrors
        as (name & description & main' & deps & dev & found1 & found2
            & _ & _ & _ & Hdescription' & Hlong & _).
      rewrite Hdescription in Hdescription'. injection Hdescription' as <-.
      exact Hlong.
    - unfold Part000.validate in Hr.
      inv_bind_as Hr u1 Hstep1.
      inv_bind_as Hr name Hname.
      inv_bind_as Hr u2 Hstep2.
      inv_bind_as Hr description Hdescription'.
      inv_bind_as Hr too_long Hlong.
      inv_bind_as Hr u3 Hstep3.
      rewrite Hdescription in Hdescription'. injection Hdescription' as <-.
      apply throw_if_Return in Hstep3. subst too_long. exact Hlong. }
  destruct (truthy (VStr s)) eqn:Ht.
  - simpl in Hlong. unfold js_gt in Hlong. simpl in Hlong.
    injection Hlong as Hlong. apply Z.ltb_ge in Hlong. lia.
  - simpl in Ht. apply negb_false_iff, String.eqb_eq in Ht. subst. simpl. lia.
Qed.

(** X12. In a manifest that [validate] accepts, in either revision, [main]
    is absent, a string or an array, and every entry of it is a string
    without [*], not a minified file and not an asset. *)
Theorem accepted_main_entries json options r main :
  Json.validate json options = Return r ∨ Part000.validate json options = Return r →
  get_prop json "main" = Return main → is_defined main = true →
  (is_string main = true ∨ is_array main = true)
  ∧ ∀ x, In x (Accepts.main_files main) →
         ∃ f, x = VStr f ∧ Accepts.has_glob f = false ∧ ¬ Accepts.minified f
              ∧ isAsset x = false.
Proof.
  intros Hr Hmain Hdefined.
  destruct (accepted_main_steps _ _ _ _ Hr Hmain Hdefined)
    as (items & groups & Hitems & Hloop & Hgroups).
  destruct (main_files_items _ _ Hitems) as [-> Hkind].
  split; [exact Hkind|]. apply (Part000_main_entries_checked _ _ Hloop Hgroups).
Qed.

(** X13. In a manifest that [validate] accepts, in either revision, no two
    entries of [main] have the same extension, extensions of fewer than two
    characters left aside. *)
Theorem accepted_main_has_one_file_per_extension json options r main :
  Json.validate json options = Return r ∨ Part000.validate json options = Return r →
  get_prop json "main" = Return main → is_defined main = true →
  List.NoDup (Accepts.long_extensions (Accepts.main_files main)).
Proof.
  intros Hr Hmain Hdefined.
  destruct (accepted_main_steps _ _ _ _ Hr Hmain Hdefined)
    as (items & groups & Hitems & Hloop & Hgroups).
  destruct (main_files_items _ _ Hitems) as [-> _].
  apply (Part000_main_entries_checked _ _ Hloop Hgroups).
Qed.

End ValidateCoverage.

(** ** The store: what [normalize], [parse] and [read] write *)

Section StoreCoverage.
Import RegExp Rules.
Context `{Engine} `{Platform} `{Classifiers}.

Lemma get_prop_Throw v k e :
  get_prop v k = Throw e → e = TypeError ∧ (v = VUndefined ∨ v = VNull).
Proof. destruct v; simpl; intros Heq; try discriminate; injection Heq as <-; auto. Qed.

Lemma assign_prop_keys k v old props :
  lookup_prop k props = Some old →
  map fst (assign_prop k v props) = map fst props.
Proof.
  induction props as [|[k' v'] props IH]; simpl; [discriminate|].
  destruct (String.eqb k k'); simpl; [reflexivity|].
  intros Hl. rewrite IH; auto.
Qed.

Lemma string_main_is_own props main :
  get_prop (VObj props) "main" = Return main → is_string main = true →
  ∃ f, main = VStr f ∧ lookup_prop "main" props = Some (VStr f).
Proof.
  simpl. intros [= <-] Hs.
  destruct (lookup_prop "main" props) as [v|]; simpl in *; [|discriminate].
  destruct v; try discriminate. eauto.
Qed.

(** What [normalize] leaves as it was. *)
Lemma normalize_frame json h r h' :
  Json.normalize json h = (r, h') →
  (∀ l, l ≠ json → h' !! l = h !! l)
  ∧ (∀ k, k ≠ "main" → get_prop (deref h' json) k = get_prop (deref h json) k)
  ∧ map fst (own_props (deref h' json)) = map fst (own_props (deref h json))
  ∧ (r = Return json
     ∨ r = Throw TypeError ∧ h' = h
       ∧ (deref h json = VUndefined ∨ deref h json = VNull)).
Proof.
  unfold Json.normalize.
  destruct (get_prop (deref h json) "main") as [main|e] eqn:Hmain.
  - destruct (is_string main) eqn:Hs;
      [destruct (deref h json) as [| | | | | |props] eqn:Hd|];
      intros [= <- <-]; rewrite ?Hd;
      try (split; [intros; reflexivity
                  |split; [intros; reflexivity
                          |split; [reflexivity | left; reflexivity]]]; fail).
    destruct (string_main_is_own _ _ Hmain Hs) as (f & -> & Hown).
    split; [intros l Hl; apply lookup_insert_ne; auto|].
    rewrite deref_insert. split; [|split; [|auto]].
    + intros k Hk. simpl. rewrite lookup_assign_prop_ne; auto.
    + simpl. eapply assign_prop_keys; eauto.
  - intros [= <- <-]. apply get_prop_Throw in Hmain as [-> Hv].
    repeat split; auto.
Qed.

(** X14. [normalize] writes nowhere but into the [main] property of the
    manifest it is given: the other objects of the store, the other
    properties of the manifest and the order of its keys are as before.  It
    returns the manifest it was given, or throws a TypeError, on [null] and
    [undefined] only, and then writes nothing. *)
Theorem normalize_writes_main_only json h r h' :
  Json.normalize json h = (r, h') →
  (∀ l, l ≠ json → h' !! l = h !! l)
  ∧ (∀ k, k ≠ "main" → get_prop (deref h' json) k = get_prop (deref h json) k)
  ∧ map fst (own_props (deref h' json)) = map fst (own_props (deref h json))
  ∧ (r = Return json
     ∨ r = Throw TypeError ∧ h' = h
       ∧ (deref h json = VUndefined ∨ deref h json = VNull)).
Proof. exact (normalize_frame json h r h'). Qed.

Lemma bind_assoc {A B C} (m : result A) (f : A → result B) (g : B → result C) :
  (m ≫= f) ≫= g = m ≫= λ a, f a ≫= g.
Proof. destruct m; reflexivity. Qed.

Lemma bind_ext {A B} (m : result A) (f g : A → result B) :
  (∀ a, f a = g a) → m ≫= f = m ≫= g.
Proof. intros Hfg. destruct m; simpl; auto. Qed.

(** Validation before and after a string [main] is wrapped. *)
Lemma normalize_validate props f options :
  lookup_prop "main" props = Some (VStr f) →
  let normalized := VObj (assign_prop "main" (VArr [VStr f]) props) in
  Json.findErrors normalized options = Json.findErrors (VObj props) options
  ∧ Part000.validate normalized options
    = (Part000.validate (VObj props) options;; Return normalized).
Proof.
  intros Hmain normalized.
  assert (Hother : ∀ k, k ≠ "main" →
                        get_prop normalized k = get_prop (VObj props) k).
  { intros k Hk. simpl. rewrite lookup_assign_prop_ne; auto. }
  assert (Hnew : get_prop normalized "main" = Return (VArr [VStr f])).
  { simpl. rewrite lookup_assign_prop_eq. reflexivity. }
  assert (Hold : get_prop (VObj props) "main" = Return (VStr f)).
  { simpl. rewrite Hmain. reflexivity. }
  split.
  - unfold Json.findErrors.
    rewrite Hnew, Hold, !Hother by discriminate. reflexivity.
  - unfold Part000.validate.
    rewrite Hnew, Hold, !Hother by discriminate.
    rewrite !bind_assoc. repeat (apply bind_ext; intros ?; rewrite ?bind_assoc).
    rewrite !Return_bind. cbn [is_defined is_string is_array negb throw_if].
    rewrite ?Return_bind, ?bind_assoc.
    repeat (apply bind_ext; intros ?; rewrite ?bind_assoc).
    reflexivity.
Qed.

(** X15. Normalising does not change what validation finds: on a manifest
    whose [main] is a string, [findErrors] gives the same before and after
    the string is wrapped, and the earlier [validate] throws the same or
    accepts both. *)
Theorem normalized_manifest_validates_alike props f options :
  lookup_prop "main" props = Some (VStr f) →
  let normalized := VObj (assign_prop "main" (VArr [VStr f]) props) in
  Json.findErrors normalized options = Json.findErrors (VObj props) options
  ∧ Part000.validate normalized options
    = (Part000.validate (VObj props) options;; Return normalized).
Proof. exact (normalize_validate props f options). Qed.


Lemma fresh_is_free (h : heap) : h !! fresh (dom h) = None.
Proof. apply not_elem_of_dom. apply is_fresh. Qed.

Lemma Json_validate_Return json options v :
  Json.validate json options = Return v →
  v = json ∧ Json.findErrors json options = Return [].
Proof.
  unfold Json.validate. intros Hr. inv_bind_as Hr errors Herrors.
  destruct errors; [|discriminate]. injection Hr as <-. auto.
Qed.

Lemma normalize_keeps_valid json h l h' options :
  Json.normalize json h = (Return l, h') →
  Json.findErrors (deref h json) options = Return [] →
  l = json ∧ Json.findErrors (deref h' json) options = Return [].
Proof.
  unfold Json.normalize.
  destruct (get_prop (deref h json) "main") as [main|e] eqn:Hmain; [|discriminate].
  destruct (is_string main) eqn:Hs;
    [destruct (deref h json) as [| | | | | |props] eqn:Hd|];
    intros [= <- <-]; rewrite ?Hd; auto.
  destruct (string_main_is_own _ _ Hmain Hs) as (f & -> & Hown).
  rewrite deref_insert. intros Hvalid. split; [reflexivity|].
  rewrite <- Hvalid. apply (normalize_validate _ _ _ Hown).
Qed.

(** [parse] with [clone] on. *)
Lemma parse_clone_frame json options h r h' :
  default false (opt_clone options) = true →
  Json.parse json options h = (r, h') →
  (∀ l v, h !! l = Some v → h' !! l = Some v)
  ∧ (∀ l, r = Return l → h !! l = None).
Proof.
  intros Hclone. unfold Json.parse. rewrite Hclone.
  pose proof (fresh_is_free h) as Hfree.
  set (copy := fresh (dom h)) in *.
  set (h1 := <[copy := deepCopy (deref h json)]> h).
  assert (Hkept : ∀ l v, h !! l = Some v → h1 !! l = Some v).
  { intros l v Hl. unfold h1. rewrite lookup_insert_ne; [exact Hl|].
    intros <-. congruence. }
  destruct (if default true (opt_validate options)
            then Json.validate (deref h1 copy) options
            else Return (deref h1 copy)) as [v|e].
  - destruct (default false (opt_normalize options)).
    + destruct (Json.normalize copy h1) as [[l|e] h2] eqn:Hn;
        intros [= <- <-];
        apply normalize_frame in Hn as (Hframe & _);
        (split; [|intros l' [= <-]; exact Hfree || discriminate]);
        intros l' v' Hl'; rewrite Hframe; auto; intros ->; congruence.
    + intros [= <- <-]. split; [exact Hkept|]. intros l [= <-]. exact Hfree.
  - intros [= <- <-]. split; [exact Hkept | discriminate].
Qed.

(** X16. With [clone] on, [parse] writes into no object that was in the
    store: it works on a copy at a location that was free, and that copy is
    what it returns. *)
Theorem parse_with_clone_spares_the_store json options h r h' :
  default false (opt_clone options) = true →
  Json.parse json options h = (r, h') →
  (∀ l v, h !! l = Some v → h' !! l = Some v)
  ∧ (∀ l, r = Return l → h !! l = None).
Proof. exact (parse_clone_frame json options h r h'). Qed.

(** [parse] with [clone] off. *)
Lemma parse_in_place_frame json options h r h' :
  default false (opt_clone options) = false →
  Json.parse json options h = (r, h') →
  (∀ l, l ≠ json → h' !! l = h !! l)
  ∧ (∀ l, r = Return l → l = json)
  ∧ (∀ e, default true (opt_validate options) = true →
          Json.validate (deref h json) options = Throw e →
          r = Throw e ∧ h' = h).
Proof.
  intros Hclone. unfold Json.parse. rewrite Hclone.
  destruct (default true (opt_validate options)).
  - destruct (Json.validate (deref h json) options) as [v|e].
    + destruct (default false (opt_normalize options)).
      * destruct (Json.normalize json h) as [[l|e] h2] eqn:Hn;
          intros [= <- <-];
          apply normalize_frame in Hn as (Hframe & _);
          (split; [exact Hframe|]); split;
          first [intros l' [= <-]; reflexivity | discriminate | idtac].
      * intros [= <- <-]. split; [reflexivity|]. split; [|discriminate].
        intros l [= <-]. reflexivity.
    + intros [= <- <-]. split; [reflexivity|]. split; [discriminate|].
      intros e' _ [= <-]. auto.
  - destruct (default false (opt_normalize options)).
    + destruct (Json.normalize json h) as [[l|e] h2] eqn:Hn;
        intros [= <- <-];
        apply normalize_frame in Hn as (Hframe & _);
        (split; [exact Hframe|]); split;
        first [intros l' [= <-]; reflexivity | discriminate | idtac].
    + intros [= <- <-]. split; [reflexivity|]. split; [|discriminate].
      intros l [= <-]. reflexivity.
Qed.

(** X17. With [clone] off, [parse] works in place: what it returns is the
    manifest it was given, no other object of the store is written, and
    when validation is on and fails, the error of [validate] is thrown as
    it is and nothing at all is written. *)
Theorem parse_without_clone_works_in_place json options h r h' :
  default false (opt_clone options) = false →
  Json.parse json options h = (r, h') →
  (∀ l, l ≠ json → h' !! l = h !! l)
  ∧ (∀ l, r = Return l → l = json)
  ∧ (∀ e, default true (opt_validate options) = true →
          Json.validate (deref h json) options = Throw e →
          r = Throw e ∧ h' = h).
Proof. exact (parse_in_place_frame json options h r h'). Qed.

(** [parse] with validation on. *)
Lemma parse_valid json options h l h' :
  default true (opt_validate options) = true →
  Json.parse json options h = (Return l, h') →
  Json.validate (deref h' l) options = Return (deref h' l).
Proof.
  intros Hvalidate. unfold Json.parse. rewrite Hvalidate.
  destruct (if default false (opt_clone options)
            then (fresh (dom h), <[fresh (dom h) := deepCopy (deref h json)]> h)
            else (json, h)) as [json1 h1].
  destruct (Json.validate (deref h1 json1) options) as [v|e] eqn:Hv;
    [|discriminate].
  apply Json_validate_Return in Hv as [-> Hvalid].
  assert (Hdone : ∀ h2, Json.findErrors (deref h2 json1) options = Return [] →
                        Json.validate (deref h2 json1) options
                        = Return (deref h2 json1)).
  { intros h2 Hh2. unfold Json.validate. rewrite Hh2. reflexivity. }
  destruct (default false (opt_normalize options)).
  - destruct (Json.normalize json1 h1) as [[l'|e] h2] eqn:Hn; [|discriminate].
    intros [= <- <-].
    destruct (normalize_keeps_valid _ _ _ _ options Hn Hvalid) as [_ Hvalid2].
    auto.
  - intros [= <- <-]. auto.
Qed.

(** X18. With validation on, the manifest that [parse] returns is one that
    [validate] accepts, also after it was normalised. *)
Theorem parse_returns_a_valid_manifest json options h l h' :
  default true (opt_validate options) = true →
  Json.parse json options h = (Return l, h') →
  Json.validate (deref h' l) options = Return (deref h' l).
Proof. exact (parse_valid json options h l h'). Qed.

Lemma parse_frame json options h r h' l v :
  Json.parse json options h = (r, h') → l ≠ json → h !! l = Some v →
  h' !! l = Some v.
Proof.
  intros Hp Hl Hv. destruct (default false (opt_clone options)) eqn:Hclone.
  - apply (parse_clone_frame _ _ _ _ _ Hclone Hp); auto.
  - destruct (parse_in_place_frame _ _ _ _ _ Hclone Hp) as (Hframe & _).
    rewrite Hframe; auto.
Qed.

Lemma parse_returns json options h l h' :
  Json.parse json options h = (Return l, h') → l = json ∨ h !! l = None.
Proof.
  intros Hp. destruct (default false (opt_clone options)) eqn:Hclone.
  - right. apply (parse_clone_frame _ _ _ _ _ Hclone Hp); auto.
  - left. apply (parse_in_place_frame _ _ _ _ _ Hclone Hp); auto.
Qed.

(** X19. [read] writes into no object that was in the store, and the
    manifest it hands over is at a location that was free. *)
Theorem read_spares_the_store fuel path options h r h' :
  Json.read fuel path options h = Some (r, h') →
  (∀ l v, h !! l = Some v → h' !! l = Some v)
  ∧ (∀ l p, r = Return (l, p) → h !! l = None).
Proof.
  revert path. induction fuel as [|fuel IH]; intros path; simpl; [discriminate|].
  destruct (fs_stat path) as [[|]|e].
  - destruct (Json.find path None) as [found|e]; [apply IH|].
    intros [= <- <-]. split; [auto | discriminate].
  - destruct (fs_readFile path) as [contents|e];
      [|intros [= <- <-]; split; [auto | discriminate]].
    destruct (JSON_parse contents) as [parsed|e];
      [|intros [= <- <-]; split; [auto | discriminate]].
    pose proof (fresh_is_free h) as Hfree.
    set (json := fresh (dom h)) in *.
    destruct (Json.parse json options (<[json := parsed]> h)) as [[l|e] h2] eqn:Hp;
      intros [= <- <-].
    + split.
      * intros l' v Hl'. eapply parse_frame; eauto; [intros ->; congruence|].
        rewrite lookup_insert_ne; [exact Hl' | intros <-; congruence].
      * intros l' p [= <- <-].
        destruct (parse_returns _ _ _ _ _ Hp) as [-> | Hnone]; [exact Hfree|].
        destruct (decide (l = json)) as [-> | Hne]; [exact Hfree|].
        rewrite lookup_insert_ne in Hnone; auto.
    + split; [|discriminate].
      intros l' v Hl'. eapply parse_frame; eauto; [intros ->; congruence|].
      rewrite lookup_insert_ne; [exact Hl' | intros <-; congruence].
  - intros [= <- <-]. split; [auto | discriminate].
Qed.

(** X20. What [read] hands over, whatever the path and however many
    directories it went through: the path of a file, not of a directory,
    whose contents are JSON, and, with validation on, a manifest that
    [validate] accepts. *)
Theorem read_hands_over_a_valid_manifest fuel path options h l p h' :
  Json.read fuel path options h = Some (Return (l, p), h') →
  fs_stat p = Return false
  ∧ (∃ contents parsed,
       fs_readFile p = Return contents ∧ JSON_parse contents = Return parsed)
  ∧ (default true (opt_validate options) = true →
     Json.validate (deref h' l) options = Return (deref h' l)).
Proof.
  revert path. induction fuel as [|fuel IH]; intros path; simpl; [discriminate|].
  destruct (fs_stat path) as [[|]|e] eqn:Hstat; [|
  |discriminate].
  - destruct (Json.find path None) as [found|e]; [apply IH | discriminate].
  - destruct (fs_readFile path) as [contents|e] eqn:Hread; [|discriminate].
    destruct (JSON_parse contents) as [parsed|e] eqn:Hparse; [|discriminate].
    destruct (Json.parse (fresh (dom h)) options (<[fresh (dom h) := parsed]> h))
      as [[l'|e] h2] eqn:Hp; intros [= <- <- <-].
    split; [exact Hstat|]. split; [eauto|].
    intros Hvalidate. eapply parse_valid; eauto.
Qed.

(** X21. Whatever list it is given, what [find] returns is the path of a
    candidate of the list that exists and that is not a [component.json]
    taken for a legacy component file; and it fails, with ENOENT, only when
    no candidate of the list is acceptable. *)
Theorem find_returns_an_acceptable_candidate folder files :
  match Json.find folder files with
  | Return file =>
      ∃ name, In name (default Json.possibleJsons files)
              ∧ file = path_resolve (path_join folder name)
              ∧ fs_exists file = true
              ∧ (name = "component.json" → isComponent file = false)
  | Throw e =>
      code e = Some "ENOENT" ∧ file e = None
      ∧ ∀ name, In name (default Json.possibleJsons files) →
                Spec.acceptable folder name = false
  end.
Proof.
  unfold Json.find. rewrite find_in_first_acceptable.
  destruct (List.find (Spec.acceptable folder) (default Json.possibleJsons files))
    as [name|] eqn:Hfind.
  - apply find_some in Hfind as [Hin Hacc]. exists name.
    unfold Spec.acceptable in Hacc. apply andb_prop in Hacc as [Hex Hleg].
    repeat split; auto. intros ->. rewrite String.eqb_refl in Hleg.
    simpl in Hleg. apply negb_true_iff in Hleg. exact Hleg.
  - repeat split. intros name Hin. apply (find_none _ _ Hfind); auto.
Qed.

End StoreCoverage.

(** ** The errors of the validators *)

Section ErrorCoverage.
Import RegExp Rules Accepts.
Context `{Engine} `{Platform} `{Classifiers}.

Lemma throws_only_Return {A} V (a : A) : throws_only V (Return a).
Proof. intros e. discriminate. Qed.

Lemma throws_only_bind {A B} V (m : result A) (f : A → result B) :
  throws_only V m → (∀ a, throws_only V (f a)) → throws_only V (m ≫= f).
Proof.
  intros Hm Hf e. destruct m as [a|e']; simpl.
  - apply Hf.
  - intros [= <-]. apply Hm. reflexivity.
Qed.

Lemma throws_only_if {A} V (b : bool) (m1 m2 : result A) :
  throws_only V m1 → throws_only V m2 → throws_only V (if b then m1 else m2).
Proof. destruct b; auto. Qed.

Lemma throws_only_forEach {A S} V (body : S → A → result S) l acc :
  (∀ a x, throws_only V (body a x)) → throws_only V (forEach body l acc).
Proof.
  intros Hbody. revert acc. induction l as [|x l IH]; intros acc; simpl.
  - apply throws_only_Return.
  - apply throws_only_bind; auto.
Qed.

Lemma validation_error_create msg : validation_error (createError msg "EINVALID").
Proof. split; [reflexivity | left; reflexivity]. Qed.

Lemma validation_error_TypeError : validation_error TypeError.
Proof. split; [reflexivity | right; reflexivity]. Qed.

Lemma throws_only_TypeError {A} : throws_only validation_error (@Throw A TypeError).
Proof. intros e [= <-]. apply validation_error_TypeError. Qed.

Lemma throws_only_create {A} msg :
  throws_only validation_error (@Throw A (createError msg "EINVALID")).
Proof. intros e [= <-]. apply validation_error_create. Qed.

Lemma throws_only_throw_if cond msg :
  throws_only validation_error (throw_if cond msg).
Proof.
  destruct cond; simpl; [apply throws_only_create | apply throws_only_Return].
Qed.

Lemma throws_only_get_prop v k : throws_only validation_error (get_prop v k).
Proof.
  destruct v; simpl;
    first [apply throws_only_Return | apply throws_only_TypeError].
Qed.

Lemma throws_only_ToString v : throws_only validation_error (ToString v).
Proof.
  revert v. fix IH 1. intros v.
  destruct v as [| |b|n|s|items|props]; simpl;
    try apply throws_only_Return.
  - induction items as [|x rest IHrest]; [apply throws_only_Return|].
    apply throws_only_bind.
    + pose proof (IH x) as Hx.
      destruct x; try apply throws_only_Return; exact Hx.
    + intros s. destruct rest; [apply throws_only_Return|].
      apply throws_only_bind; [exact IHrest | intros; apply throws_only_Return].
  - destruct (lookup_prop "toString" props);
      [apply throws_only_TypeError | apply throws_only_Return].
Qed.


Lemma throws_only_ToNumber v : throws_only validation_error (ToNumber v).
Proof.
  destruct v; unfold ToNumber; try apply throws_only_Return;
    (apply throws_only_bind; [apply throws_only_ToString
                             |intros; apply throws_only_Return]).
Qed.

Lemma throws_only_js_gt v n : throws_only validation_error (js_gt v n).
Proof.
  apply throws_only_bind; [apply throws_only_ToNumber
                          |intros; apply throws_only_Return].
Qed.

Lemma throws_only_js_ge v n : throws_only validation_error (js_ge v n).
Proof.
  apply throws_only_bind; [apply throws_only_ToNumber
                          |intros; apply throws_only_Return].
Qed.

Lemma throws_only_extname v : throws_only validation_error (extname v).
Proof.
  destruct v; simpl;
    first [apply throws_only_Return | apply throws_only_TypeError].
Qed.

Ltac throws_step :=
  first [ apply throws_only_Return
        | apply throws_only_TypeError
        | apply throws_only_create
        | apply throws_only_throw_if
        | apply throws_only_get_prop
        | apply throws_only_ToString
        | apply throws_only_js_gt
        | apply throws_only_js_ge
        | apply throws_only_extname
        | apply throws_only_if
        | apply throws_only_forEach; intros ? ?
        | apply throws_only_bind; [|intros ?] ].

Lemma throws_only_has_length v : throws_only validation_error (has_length v).
Proof. unfold has_length. repeat throws_step. Qed.

Lemma throws_only_strict_checks s : throws_only validation_error (strict_checks s).
Proof.
  unfold strict_checks, check_no_upper, check_starts_lower, check_ends_lower,
    check_has_lower. repeat throws_step.
Qed.

Lemma throws_only_Json_name name strictNames :
  throws_only validation_error (Json.findPackageNameErrors name strictNames).
Proof.
  unfold Json.findPackageNameErrors, check_invalid_character, check_structure.
  apply throws_only_if; [apply throws_only_create|].
  destruct name; try apply throws_only_create.
  repeat first [apply throws_only_strict_checks | throws_step].
Qed.

Lemma throws_only_Part000_name name strictNames :
  throws_only validation_error (Part000.validatePackageName name strictNames).
Proof.
  unfold Part000.validatePackageName, check_invalid_character, check_structure.
  repeat first [apply throws_only_strict_checks | throws_step].
Qed.

Lemma throws_only_Json_dependencies deps strictNames :
  throws_only validation_error (Json.findDependencyErrors deps strictNames).
Proof.
  unfold Json.findDependencyErrors, Json.dependency_entry.
  repeat first [apply throws_only_Json_name | throws_step].
Qed.

Lemma throws_only_Part000_dependencies deps strictNames :
  throws_only validation_error (Part000.validateDependencies deps strictNames).
Proof.
  unfold Part000.validateDependencies, Part000.dependency_entry.
  repeat first [apply throws_only_Part000_name | throws_step].
Qed.

Lemma throws_only_Part000_validate json options :
  throws_only validation_error (Part000.validate json options).
Proof.
  unfold Part000.validate, Part000.main_entry, Part000.group_entry.
  repeat first [ apply throws_only_Part000_name
               | apply throws_only_Part000_dependencies
               | apply throws_only_has_length
               | throws_step
               | match goal with
                 | |- throws_only _ (match ?v with _ => _ end) => destruct v
                 end ].
Qed.

Lemma throws_only_Json_main_entry acc x :
  throws_only validation_error (Json.main_entry acc x).
Proof.
  unfold Json.main_entry. destruct acc. repeat throws_step.
Qed.

Lemma throws_only_Json_findErrors json options :
  throws_only validation_error (Json.findErrors json options).
Proof.
  unfold Json.findErrors.
  repeat first [ apply throws_only_Json_name
               | apply throws_only_Json_dependencies
               | apply throws_only_has_length
               | apply throws_only_forEach; intros ? ?;
                 apply throws_only_Json_main_entry
               | throws_step
               | match goal with
                 | |- throws_only _ (match ?v with _ => _ end) => destruct v
                 end ].
Qed.

Lemma Json_main_entry_errors errors groups x errors' groups' :
  Json.main_entry (errors, groups) x = Return (errors', groups') →
  Forall validation_error errors → Forall validation_error errors'.
Proof.
  unfold Json.main_entry. intros Hr Hall.
  inv_bind_as Hr s Hs. inv_bind_as Hr ext Hext. injection Hr as <- _.
  repeat match goal with
         | |- context [if ?b then _ else _] => destruct b
         end;
    repeat (apply Forall_app; split; [|repeat constructor;
                                       apply validation_error_create]);
    exact Hall.
Qed.

Lemma Json_main_entries_errors items errors groups errors' groups' :
  forEach Json.main_entry items (errors, groups) = Return (errors', groups') →
  Forall validation_error errors → Forall validation_error errors'.
Proof.
  revert errors groups. induction items as [|x items IH]; intros errors groups Hr Hall.
  - injection Hr as <- _. exact Hall.
  - rewrite forEach_cons in Hr. inv_bind_as Hr acc Hx. destruct acc as [errors1 groups1].
    eapply IH; eauto. eapply Json_main_entry_errors; eauto.
Qed.

Lemma Json_group_entries_errors groups errors :
  Forall validation_error errors →
  Forall validation_error (fold_left Json.group_entry groups errors).
Proof.
  revert errors. induction groups as [|[ext files] groups IH]; intros errors Hall;
    simpl; [exact Hall|].
  apply IH. destruct (1 <? Z.of_nat (length files)); [|exact Hall].
  apply Forall_app. split; [exact Hall|].
  repeat constructor.
Qed.

Lemma Json_findErrors_errors json options errors :
  Json.findErrors json options = Return errors →
  Forall validation_error errors.
Proof.
  unfold Json.findErrors. intros Herrors.
  inv_bind_as Herrors errors1 Hstep1.
  inv_bind_as Herrors name Hname.
  inv_bind_as Herrors errors2 Hstep2.
  inv_bind_as Herrors description Hdescription.
  inv_bind_as Herrors too_long Hlong.
  inv_bind_as Herrors main Hmain.
  inv_bind_as Herrors errors3 Hstep3.
  inv_bind_as Herrors deps Hdeps.
  inv_bind_as Herrors found1 Hfound1.
  inv_bind_as Herrors dev Hdev.
  inv_bind_as Herrors found2 Hfound2.
  injection Herrors as <-.
  assert (Hone : Forall validation_error errors1).
  { destruct (default true (opt_enforceNameExists options)).
    - inv_bind_as Hstep1 name' Hname'. inv_bind_as Hstep1 named Hnamed.
      injection Hstep1 as <-. destruct (negb named); repeat constructor.
    - injection Hstep1 as <-. constructor. }
  assert (Htwo : Forall validation_error errors2).
  { destruct (truthy name).
    - inv_bind_as Hstep2 found Hfound. injection Hstep2 as <-.
      destruct (Json_name_errors_shape name (default true (opt_strictNames options)))
        as [Hnil | (e & He & _)]; [|congruence].
      rewrite Hnil in Hfound. injection Hfound as <-. rewrite app_nil_r. exact Hone.
    - injection Hstep2 as <-. exact Hone. }
  assert (Hdesc : Forall validation_error
                    (if (too_long : bool)
                     then errors2 ++ [createError msg_description "EINVALID"]
                     else errors2)).
  { destruct too_long; [|exact Htwo]. apply Forall_app. split; [exact Htwo|].
    repeat constructor. }
  destruct (is_defined main).
  - destruct (if is_string main then VArr [main] else main) as [| | | | |items|];
      try discriminate.
    inv_bind_as Hstep3 acc Hacc. destruct acc as [errors' groups'].
    injection Hstep3 as <-. simpl in Hacc.
    apply Json_group_entries_errors.
    eapply Json_main_entries_errors; eauto.
  - injection Hstep3 as <-. exact Hdesc.
Qed.

(** X22. What [validate] throws, in either revision and on every manifest
    and options, is an error without a file that has the code EINVALID, or
    the engine's TypeError: a file is never set and no other code is used
    by the validators. *)
Theorem validate_throws_validation_errors json options e :
  Json.validate json options = Throw e ∨ Part000.validate json options = Throw e →
  file e = None ∧ (code e = Some "EINVALID" ∨ e = TypeError).
Proof.
  intros [He | He].
  - unfold Json.validate in He.
    destruct (Json.findErrors json options) as [errors|e'] eqn:Herrors; simpl in He.
    + destruct errors as [|e1 errors]; [discriminate|]. injection He as <-.
      apply Json_findErrors_errors in Herrors. inversion Herrors; auto.
    + injection He as <-.
      apply (throws_only_Json_findErrors json options); auto.
  - apply (throws_only_Part000_validate json options); auto.
Qed.

End ErrorCoverage.

Section Runs.
Import RegExp Rules Words Accepts Fixtures.
#[local] Existing Instance Sample.engine.
#[local] Existing Instance Sample.platform.
#[local] Existing Instance Sample.classifiers.

(** A name of fifty letters. *)
Lemma long_name_is_rejected_witness :
  Json.validatePackageName (VStr fifty) true
    = Throw (createError msg_name_too_long "EINVALID")
  ∧ Part000.validatePackageName (VStr fifty) true
    = Throw (createError msg_name_too_long "EINVALID").
Proof. apply (long_name_is_rejected fifty true). simpl. lia. Defined.

(** The characters of [foo-bar.js], an accepted name. *)
Lemma accepted_name_characters_witness :
  forallb is_name_char (list_ascii_of_string "foo-bar.js") = true
  ∧ ∃ ch rest, list_ascii_of_string "foo-bar.js" = ch :: rest ∧ is_Az ch = true.
Proof.
  apply (accepted_name_characters "foo-bar.js" true).
  left. vm_compute. reflexivity.
Defined.

(** The separators of [foo-bar.js], an accepted name. *)
Lemma accepted_name_separators_witness :
  well_separated (list_ascii_of_string "foo-bar.js") = true
  ∧ starts_clean (list_ascii_of_string "foo-bar.js") = true
  ∧ ends_clean (list_ascii_of_string "foo-bar.js") = true
  ∧ ¬ Spec.contains ".." "foo-bar.js".
Proof.
  apply (accepted_name_separators "foo-bar.js" true).
  right. vm_compute. reflexivity.
Defined.

(** The dependencies [{bar: 1.0.0}]. *)
Lemma dependencies_accepted_iff_witness :
  let deps := VObj [("bar", VStr "1.0.0")] in
  (Json.validateDependencies deps true = Return tt
   ↔ names_accepted true ["bar"] ∧ plain_resources deps ["bar"])
  ∧ (Part000.validateDependencies deps true = Return tt
     ↔ names_accepted true ["bar"] ∧ plain_resources deps ["bar"]).
Proof.
  apply (dependencies_accepted_iff (VObj [("bar", VStr "1.0.0")]) true).
  - reflexivity.
  - intros name [<- | []]. exists "1.0.0". reflexivity.
Defined.

(** The manifest of [foo] is accepted by the earlier revision, hence by
    [lib/json.js]. *)
Lemma earlier_accepted_is_accepted_witness :
  Json.validate manifest no_options = Return manifest.
Proof.
  apply (earlier_accepted_is_accepted manifest no_options manifest).
  - vm_compute. reflexivity.
  - intros name [= <-] _. reflexivity.
Defined.

(** The manifest of [foo] is accepted by [lib/json.js], and by the earlier
    revision. *)
Lemma accepted_is_earlier_accepted_but_for_traversal_witness :
  Part000.validate manifest no_options = Return manifest
  ∨ Part000.validate manifest no_options
    = Throw (createError msg_traversal "EINVALID").
Proof.
  apply (accepted_is_earlier_accepted_but_for_traversal manifest no_options manifest).
  vm_compute. reflexivity.
Defined.

(** The description of the manifest of [foo]. *)
Lemma accepted_description_is_short_witness :
  (String.length "d" <= 140)%nat.
Proof.
  apply (accepted_description_is_short manifest no_options manifest "d").
  - left. vm_compute. reflexivity.
  - reflexivity.
Defined.

(** The [main] of the manifest of [foo]. *)
Lemma accepted_main_entries_witness :
  let main := VArr [VStr "a.js"; VStr "a.css"] in
  (is_string main = true ∨ is_array main = true)
  ∧ ∀ x, In x (main_files main) →
         ∃ f, x = VStr f ∧ has_glob f = false ∧ ¬ minified f
              ∧ isAsset x = false.
Proof.
  apply (accepted_main_entries manifest no_options manifest
           (VArr [VStr "a.js"; VStr "a.css"])).
  - right. vm_compute. reflexivity.
  - reflexivity.
  - reflexivity.
Defined.

(** The extensions of the [main] of the manifest of [foo]. *)
Lemma accepted_main_has_one_file_per_extension_witness :
  List.NoDup (long_extensions (main_files (VArr [VStr "a.js"; VStr "a.css"]))).
Proof.
  apply (accepted_main_has_one_file_per_extension manifest no_options manifest
           (VArr [VStr "a.js"; VStr "a.css"])).
  - left. vm_compute. reflexivity.
  - reflexivity.
  - reflexivity.
Defined.

(** [normalize] on the store that holds the manifest of [foo] with [a.js]
    for [main]. *)
Lemma normalize_writes_main_only_witness :
  let h' : heap := <[0%nat := VObj [("name", VStr "foo"); ("main", VArr [VStr "a.js"])]]> store in
  (∀ l, l ≠ 0%nat → h' !! l = store !! l)
  ∧ (∀ k, k ≠ "main" → get_prop (deref h' 0%nat) k = get_prop (deref store 0%nat) k)
  ∧ map fst (own_props (deref h' 0%nat)) = map fst (own_props (deref store 0%nat))
  ∧ (Return 0%nat = Return 0%nat
     ∨ @Return loc 0%nat = Throw TypeError ∧ h' = store
       ∧ (deref store 0%nat = VUndefined ∨ deref store 0%nat = VNull)).
Proof.
  apply (normalize_writes_main_only 0%nat store (Return 0%nat)).
  vm_compute. reflexivity.
Defined.

(** Validation of the manifest of [foo] with [a.js] for [main], before and
    after the string is wrapped. *)
Lemma normalized_manifest_validates_alike_witness :
  let normalized := VObj (assign_prop "main" (VArr [VStr "a.js"]) plain) in
  Json.findErrors normalized no_options = Json.findErrors (VObj plain) no_options
  ∧ Part000.validate normalized no_options
    = (Part000.validate (VObj plain) no_options;; Return normalized).
Proof.
  apply (normalized_manifest_validates_alike plain "a.js" no_options).
  reflexivity.
Defined.

(** [parse] with [clone] on the store that holds the manifest of [foo]. *)
Lemma parse_with_clone_spares_the_store_witness :
  let h' : heap := <[1%nat := VObj [("name", VStr "foo"); ("main", VArr [VStr "a.js"])]]> store in
  (∀ l v, store !! l = Some v → h' !! l = Some v)
  ∧ (∀ l, Return 1%nat = Return l → store !! l = None).
Proof.
  apply (parse_with_clone_spares_the_store 0%nat cloning store (Return 1%nat)).
  - reflexivity.
  - vm_compute. reflexivity.
Defined.

(** [parse] without [clone] on the store that holds the manifest of [foo]. *)
Lemma parse_without_clone_works_in_place_witness :
  let h' : heap := <[0%nat := VObj [("name", VStr "foo"); ("main", VArr [VStr "a.js"])]]> store in
  (∀ l, l ≠ 0%nat → h' !! l = store !! l)
  ∧ (∀ l, Return 0%nat = Return l → l = 0%nat)
  ∧ (∀ e, default true (opt_validate in_place) = true →
          Json.validate (deref store 0%nat) in_place = Throw e →
          @Return loc 0%nat = Throw e ∧ h' = store).
Proof.
  apply (parse_without_clone_works_in_place 0%nat in_place store (Return 0%nat)).
  - reflexivity.
  - vm_compute. reflexivity.
Defined.

(** What [parse] returns on the store that holds the manifest of [foo]. *)
Lemma parse_returns_a_valid_manifest_witness :
  let h' : heap := <[1%nat := VObj [("name", VStr "foo"); ("main", VArr [VStr "a.js"])]]> store in
  Json.validate (deref h' 1%nat) cloning = Return (deref h' 1%nat).
Proof.
  apply (parse_returns_a_valid_manifest 0%nat cloning store 1%nat).
  - reflexivity.
  - vm_compute. reflexivity.
Defined.

(** [read] on the directory [/pkg], from the store that holds the manifest
    of [foo]. *)
Lemma read_spares_the_store_witness :
  let h' : heap := <[1%nat := VObj [("name", VStr "My-Pkg"); ("main", VStr "a.js")]]> store in
  (∀ l v, store !! l = Some v → h' !! l = Some v)
  ∧ (∀ l p, Return (1%nat, "/pkg/.bower.json") = Return (l, p) → store !! l = None).
Proof.
  apply (read_spares_the_store 2 "/pkg" lenient store
           (Return (1%nat, "/pkg/.bower.json"))).
  vm_compute. reflexivity.
Defined.

(** What [read] hands over on the directory [/pkg]. *)
Lemma read_hands_over_a_valid_manifest_witness :
  let h' : heap := {[ 0%nat := VObj [("name", VStr "My-Pkg"); ("main", VStr "a.js")] ]} in
  fs_stat "/pkg/.bower.json" = Return false
  ∧ (∃ contents parsed,
       fs_readFile "/pkg/.bower.json" = Return contents
       ∧ JSON_parse contents = Return parsed)
  ∧ (default true (opt_validate lenient) = true →
     Json.validate (deref h' 0%nat) lenient = Return (deref h' 0%nat)).
Proof.
  apply (read_hands_over_a_valid_manifest 2 "/pkg" lenient ∅ 0%nat).
  vm_compute. reflexivity.
Defined.

(** What [validate] throws on a manifest without a name. *)
Lemma validate_throws_validation_errors_witness :
  let e := createError "The name must not be empty" "EINVALID" in
  file e = None ∧ (code e = Some "EINVALID" ∨ e = TypeError).
Proof.
  apply (validate_throws_validation_errors (VObj []) no_options).
  left. vm_compute. reflexivity.
Defined.

End Runs.
